(** * aqua-eye-watch: the water-quality dashboard, embedded and verified

    The development embeds the logic of three source files:

    - the multi-site dashboard (baseline registry, sample generator,
      history buffer, status classifier): module [Dashboard];
    - the manual-entry form (validation, submission, classifier):
      module [ManualWaterQualityInput];
    - the single-site dashboard [src/components/WaterQualityDashboard.tsx]:
      module [SingleSiteDashboard].

    Module [JS] holds the part of the JavaScript platform the code calls.

    Numbers.  A JavaScript number is modelled as NaN, a signed infinity, or
    a finite value kept as an exact rational.  The range of binary64 is
    modelled (a result whose magnitude reaches the overflow threshold
    becomes an infinity); its precision is not: finite arithmetic is exact,
    and the sign of zero is not kept.  Every comparison against NaN is
    false, as in IEEE 754.  The classifier only compares, so module
    [Binary64] states it once more on primitive binary64 floats, where its
    properties hold bit for bit.

    Effects.  [Math.random()] and the clock ([Date.now()], [new Date()])
    are oracles of a [World] that is threaded through the code by a small
    state monad; React state is an explicit record and every state updater
    is a function from the previous state. *)

From Stdlib Require Import ZArith QArith Qabs Lqa Lia List String Ascii Bool Sorted.
From Stdlib Require Floats.
From stdpp Require Import base gmap strings list.

Local Open Scope Z_scope.

(* ================================================================== *)
(** * The JavaScript platform                                          *)
(* ================================================================== *)

Module JS.

(** ** Numbers *)

Inductive number : Type :=
| NaN
| Infinity (negative : bool)
| Fin (q : Q).

(** Magnitudes from [2^1024 - 2^970] on round to an infinity. *)
Definition overflow_threshold : Q := inject_Z (2 ^ 1024 - 2 ^ 970).

Definition Qlt_bool (x y : Q) : bool := negb (Qle_bool y x).

(** The number a finite mathematical value denotes. *)
Definition fin (q : Q) : number :=
  if Qle_bool overflow_threshold (Qabs q)
  then Infinity (Qlt_bool q 0)
  else Fin q.

Definition neg (a : number) : number :=
  match a with
  | NaN => NaN
  | Infinity s => Infinity (negb s)
  | Fin q => Fin (- q)
  end.

(** [a + b] *)
Definition add (a b : number) : number :=
  match a, b with
  | NaN, _ | _, NaN => NaN
  | Infinity s, Infinity t => if Bool.eqb s t then Infinity s else NaN
  | Infinity s, Fin _ | Fin _, Infinity s => Infinity s
  | Fin x, Fin y => fin (x + y)
  end.

(** [a - b] *)
Definition sub (a b : number) : number := add a (neg b).

(** [a * b] *)
Definition mul (a b : number) : number :=
  match a, b with
  | NaN, _ | _, NaN => NaN
  | Infinity s, Infinity t => Infinity (xorb s t)
  | Infinity s, Fin y | Fin y, Infinity s =>
      if Qeq_bool y 0 then NaN else Infinity (xorb s (Qlt_bool y 0))
  | Fin x, Fin y => fin (x * y)
  end.

(** [a < b], [a <= b], [a > b], [a >= b]: false as soon as one side is NaN. *)
Definition ltb (a b : number) : bool :=
  match a, b with
  | NaN, _ | _, NaN => false
  | Infinity s, Infinity t => s && negb t
  | Infinity s, Fin _ => s
  | Fin _, Infinity t => negb t
  | Fin x, Fin y => Qlt_bool x y
  end.

Definition leb (a b : number) : bool :=
  match a, b with
  | NaN, _ | _, NaN => false
  | Infinity s, Infinity t => s || negb t
  | Infinity s, Fin _ => s
  | Fin _, Infinity t => negb t
  | Fin x, Fin y => Qle_bool x y
  end.

Definition gtb (a b : number) : bool := ltb b a.
Definition geb (a b : number) : bool := leb b a.

Definition lt (a b : number) : Prop := ltb a b = true.
Definition le (a b : number) : Prop := leb a b = true.
Definition gt (a b : number) : Prop := gtb a b = true.
Definition ge (a b : number) : Prop := geb a b = true.

Definition isNaN (a : number) : bool :=
  match a with NaN => true | _ => false end.

(** [Number.isFinite] *)
Definition isFinite (a : number) : bool :=
  match a with Fin _ => true | _ => false end.

(** [|a - b| <= eps] between finite numbers. *)
Definition within (a b : number) (eps : Q) : Prop :=
  match a, b with
  | Fin x, Fin y => (Qabs (x - y) <= eps)%Q
  | _, _ => False
  end.

(** [Math.max(a, b)]: NaN as soon as one argument is NaN. *)
Definition Math_max (a b : number) : number :=
  match a, b with
  | NaN, _ | _, NaN => NaN
  | _, _ => if ltb a b then b else a
  end.

Declare Scope number_scope.
Delimit Scope number_scope with num.
Bind Scope number_scope with number.
Infix "+" := add : number_scope.
Infix "-" := sub : number_scope.
Infix "*" := mul : number_scope.
Infix "<?" := ltb : number_scope.
Infix "<=?" := leb : number_scope.
Infix ">?" := gtb : number_scope.
Infix ">=?" := geb : number_scope.
Infix "<" := lt : number_scope.
Infix "<=" := le : number_scope.
Infix ">" := gt : number_scope.
Infix ">=" := ge : number_scope.


(** ** Strings *)

(** [ToBoolean] of a string: only the empty string is falsy. *)
Definition truthy (s : string) : bool :=
  match s with EmptyString => false | String _ _ => true end.

(** [a && b] on strings: [a] when [a] is falsy, [b] otherwise. *)
Definition and_then (a b : string) : string := if truthy a then b else a.

(** White space skipped by [parseFloat]; only the ASCII code points of
    the set are recognised. *)
Definition is_white_space (c : ascii) : bool :=
  let n := nat_of_ascii c in
  ((9 <=? n) && (n <=? 13))%nat || (n =? 32)%nat.

Fixpoint trim_start (s : string) : string :=
  match s with
  | String c r => if is_white_space c then trim_start r else s
  | EmptyString => s
  end.

Definition digit_value (c : ascii) : option Z :=
  let n := nat_of_ascii c in
  if ((48 <=? n) && (n <=? 57))%nat then Some (Z.of_nat n - 48) else None.

(** The longest prefix of decimal digits, and what follows it. *)
Fixpoint take_digits (s : string) : list Z * string :=
  match s with
  | String c r =>
      match digit_value c with
      | Some d => let '(ds, rest) := take_digits r in (d :: ds, rest)
      | None => ([], s)
      end
  | EmptyString => ([], s)
  end.

Definition digits_value (ds : list Z) : Z :=
  fold_left (fun acc d => 10 * acc + d) ds 0.

(** An optional sign: whether it is a minus, and what follows it. *)
Definition take_sign (s : string) : bool * string :=
  match s with
  | String c r =>
      if Ascii.eqb c "-" then (true, r)
      else if Ascii.eqb c "+" then (false, r)
      else (false, s)
  | EmptyString => (false, s)
  end.

(** The value of an [ExponentPart] at the head of [s], zero when there is
    none: [e] or [E], an optional sign, and at least one digit. *)
Definition take_exponent (s : string) : Z :=
  match s with
  | String c r =>
      if (Ascii.eqb c "e" || Ascii.eqb c "E")%bool then
        let '(negative, r') := take_sign r in
        match take_digits r' with
        | ([], _) => 0
        | (ds, _) => if negative then - digits_value ds else digits_value ds
        end
      else 0
  | EmptyString => 0
  end.

(** The digits after a decimal point at the head of [s], none when [s]
    does not start with a point; and what follows them. *)
Definition take_fraction (s : string) : list Z * string :=
  match s with
  | String c r => if Ascii.eqb c "." then take_digits r else ([], s)
  | EmptyString => ([], s)
  end.

(** [parseFloat(input)]: the value of the longest prefix of the trimmed
    input that is a [StrDecimalLiteral], NaN when there is none. *)
Definition parseFloat (input : string) : number :=
  let '(negative, s) := take_sign (trim_start input) in
  if String.prefix "Infinity" s then Infinity negative
  else
    let '(int_part, s1) := take_digits s in
    let '(frac_part, s2) := take_fraction s1 in
    match (int_part ++ frac_part)%list with
    | [] => NaN
    | ds =>
        let mantissa := inject_Z (digits_value ds) in
        let exponent := take_exponent s2 - Z.of_nat (length frac_part) in
        let value := (mantissa * 10 ^ exponent)%Q in
        fin (if negative then (- value)%Q else value)
    end.

(** ** Number inputs *)

(** An optional exponent, and nothing after it. *)
Definition valid_exponent (s : string) : bool :=
  match s with
  | EmptyString => true
  | String c r =>
      (Ascii.eqb c "e" || Ascii.eqb c "E")%bool &&
      match take_digits (snd (take_sign r)) with
      | (_ :: _, EmptyString) => true
      | _ => false
      end
  end.

(** HTML's "valid floating-point number": an optional minus, digits, or
    digits and a fraction, or a fraction alone, and an optional exponent. *)
Definition valid_floating_point_number (s : string) : bool :=
  let s0 := match s with
            | String c r => if Ascii.eqb c "-" then r else s
            | EmptyString => s
            end in
  let '(int_part, s1) := take_digits s0 in
  match s1 with
  | String c r =>
      if Ascii.eqb c "." then
        let '(frac_part, s2) := take_digits r in
        match frac_part with
        | [] => false
        | _ :: _ => valid_exponent s2
        end
      else
        match int_part with
        | [] => false
        | _ :: _ => valid_exponent s1
        end
  | EmptyString =>
      match int_part with
      | [] => false
      | _ :: _ => true
      end
  end.

(** The [value] of an [<input type="number">] holding the text [typed]:
    the value sanitization of HTML empties what is not a valid
    floating-point number. *)
Definition number_input_value (typed : string) : string :=
  if valid_floating_point_number typed then typed else "".

(** The number a valid floating-point number denotes: sign, digits,
    fraction and exponent, taken exactly. *)
Definition numeral_value (s : string) : Q :=
  let '(negative, s0) := take_sign s in
  let '(int_part, s1) := take_digits s0 in
  let '(frac_part, s2) := take_fraction s1 in
  let mantissa := inject_Z (digits_value (int_part ++ frac_part)) in
  let exponent := take_exponent s2 - Z.of_nat (length frac_part) in
  let value := (mantissa * 10 ^ exponent)%Q in
  if negative then (- value)%Q else value.

(** The number the browser converts the value of a number input to, for
    constraint validation: the number the numeral denotes, and an error
    when the value is not a valid floating-point number (the empty
    string).  The number is taken exactly: a numeral is compared with
    [min] and [max] as the decimal it is. *)
Definition string_to_number (value : string) : option Q :=
  if valid_floating_point_number value then Some (numeral_value value) else None.

(** The [min], [max] and [step] attributes of a number input. *)
Record NumberInput : Type := {
  input_min : option Q;
  input_max : option Q;
  input_step : Q
}.

Definition is_integer (q : Q) : bool := Pos.eqb (Qden (Qred q)) 1.

(** The step base of a number input: its [min] attribute, else its
    [value] content attribute when that converts to a number, else zero. *)
Definition step_base (input : NumberInput) (value_attribute : string) : Q :=
  match input_min input with
  | Some m => m
  | None =>
      match string_to_number value_attribute with
      | Some b => b
      | None => 0%Q
      end
  end.

(** Whether a number input that holds [value] satisfies its constraints.
    A value that converts to a number must not be below [min] (range
    underflow) nor above [max] (range overflow), and its distance from
    the step base must be an integral multiple of [step] (step mismatch);
    the distance is taken exactly.  The empty value suffers from none of
    the three, and the inputs are not [required]. *)
Definition satisfies_constraints (input : NumberInput)
    (value_attribute value : string) : bool :=
  match string_to_number value with
  | None => true
  | Some x =>
      match input_min input with
      | Some m => negb (Qlt_bool x m)
      | None => true
      end
      && match input_max input with
         | Some m => negb (Qlt_bool m x)
         | None => true
         end
      && is_integer ((x - step_base input value_attribute) / input_step input)
  end.

(** ** Objects used as maps *)

(** The property names an object literal inherits from
    [Object.prototype]; each holds a function or an object, all truthy. *)
Definition Object_prototype_names : list string :=
  [ "constructor"; "hasOwnProperty"; "isPrototypeOf";
    "propertyIsEnumerable"; "toLocaleString"; "toString"; "valueOf";
    "__proto__"; "__defineGetter__"; "__defineSetter__";
    "__lookupGetter__"; "__lookupSetter__" ]%string.

(** What [obj[key]] evaluates to on an object literal. *)
Inductive member (A : Type) : Type :=
| Own (a : A)
| Inherited (name : string)
| Undefined.
Arguments Own {A} a.
Arguments Inherited {A} name.
Arguments Undefined {A}.

(** [obj[key]]: an own property first, then the prototype's. *)
Definition get {A : Type} (obj : gmap string A) (key : string) : member A :=
  match obj !! key with
  | Some a => Own a
  | None =>
      if bool_decide (key ∈ Object_prototype_names) then Inherited key
      else Undefined
  end.

(** [a || b] on members: only [undefined] is falsy among them. *)
Definition or_else {A : Type} (a b : member A) : member A :=
  match a with
  | Undefined => b
  | _ => a
  end.

(** A numeric property read off a member and used in arithmetic.  An
    inherited member (a function, or [Object.prototype]) has no such
    property: the read gives [undefined], which arithmetic turns into NaN.
    Reading a property of [undefined] itself throws a TypeError; the code
    reads only members that went through [or_else] with an own property. *)
Definition num_prop {A : Type} (field : A -> number) (m : member A) : number :=
  match m with
  | Own a => field a
  | Inherited _ | Undefined => NaN
  end.

(** ** Arrays *)

(** [l.slice(start)]: a negative [start] counts from the end. *)
Definition slice {A : Type} (start : Z) (l : list A) : list A :=
  let len := Z.of_nat (length l) in
  let k := if start <? 0 then Z.max (len + start) 0 else Z.min start len in
  drop (Z.to_nat k) l.

(** ** Effects: the random source and the clock *)

(** The environment: the draws [Math.random()] will return, the readings
    the clock will give (milliseconds since the epoch), and how many of
    each have been consumed. *)
Record World : Type := {
  random_draws : nat -> Q;
  random_next : nat;
  clock_reads : nat -> Z;
  clock_next : nat
}.

Definition M (A : Type) : Type := World -> A * World.

Definition ret {A : Type} (a : A) : M A := fun w => (a, w).

Definition bind {A B : Type} (c : M A) (k : A -> M B) : M B :=
  fun w => let '(a, w') := c w in k a w'.

Notation "x <- c ;; k" := (bind c (fun x => k))
  (at level 100, c at next level, right associativity).

(** [Math.random()] *)
Definition Math_random : M number :=
  fun w => (Fin (random_draws w (random_next w)),
            {| random_draws := random_draws w; random_next := S (random_next w);
               clock_reads := clock_reads w; clock_next := clock_next w |}).

(** [Date.now()]; [new Date()] reads the clock the same way. *)
Definition Date_now : M Z :=
  fun w => (clock_reads w (clock_next w),
            {| random_draws := random_draws w; random_next := random_next w;
               clock_reads := clock_reads w; clock_next := S (clock_next w) |}).

(** [Math.random()] returns a number in [0, 1). *)
Definition random_in_range (w : World) : Prop :=
  forall n, (0 <= random_draws w n < 1)%Q.

(** From here on, every reading of the clock gives [now]. *)
Definition clock_at (now : Z) (w : World) : Prop :=
  forall n, clock_reads w (clock_next w + n) = now.

(** A world in which every draw is [r] and the clock stands at [now]. *)
Definition still_world (r : Q) (now : Z) : World :=
  {| random_draws := fun _ => r; random_next := 0;
     clock_reads := fun _ => now; clock_next := 0 |}.

(** [xs.forEach(x => ...)] and [for] loops whose body updates [s]. *)
Fixpoint foldM {A S : Type} (body : S -> A -> M S) (xs : list A) (s : S) : M S :=
  match xs with
  | [] => ret s
  | x :: xs' => s' <- body s x ;; foldM body xs' s'
  end.

(** [w'] is a later state of the environment [w]: the same oracles, with
    cursors that have only moved forward. *)
Definition later (w w' : World) : Prop :=
  random_draws w' = random_draws w /\ clock_reads w' = clock_reads w /\
  (random_next w <= random_next w')%nat /\ (clock_next w <= clock_next w')%nat.

(** A clock that never runs backwards. *)
Definition monotone_clock (w : World) : Prop :=
  forall i j : nat, (i <= j)%nat -> clock_reads w i <= clock_reads w j.

End JS.

(** The tri-state status of the classifier: ['good' | 'warning' | 'danger']. *)
Inductive Status : Type := good | warning | danger.

(* ================================================================== *)
(** * The manual-entry form                                            *)
(* ================================================================== *)

Module ManualWaterQualityInput.
Import JS.
Local Open Scope number_scope.

Record ManualReadingData : Type := {
  pH : number;
  turbidity : number;
  temperature : number;
  dissolvedOxygen : number;
  timestamp : Z;
  location : string
}.

(** The text of the four inputs. *)
Module FormData.
Record t : Type := {
  pH : string;
  turbidity : string;
  temperature : string;
  dissolvedOxygen : string
}.
End FormData.

Record State : Type := {
  formData : FormData.t;
  lastReading : option ManualReadingData
}.

Definition initial : State :=
  {| formData := {| FormData.pH := ""; FormData.turbidity := "";
                    FormData.temperature := ""; FormData.dissolvedOxygen := "" |};
     lastReading := None |}.

(** [setFormData(prev => ({ ...prev, [field]: value }))]; a [field] that
    is none of the four adds a property nothing reads. *)
Definition handleInputChange (field value : string) (prev : FormData.t) : FormData.t :=
  if String.eqb field "pH" then
    {| FormData.pH := value; FormData.turbidity := FormData.turbidity prev;
       FormData.temperature := FormData.temperature prev;
       FormData.dissolvedOxygen := FormData.dissolvedOxygen prev |}
  else if String.eqb field "turbidity" then
    {| FormData.pH := FormData.pH prev; FormData.turbidity := value;
       FormData.temperature := FormData.temperature prev;
       FormData.dissolvedOxygen := FormData.dissolvedOxygen prev |}
  else if String.eqb field "temperature" then
    {| FormData.pH := FormData.pH prev; FormData.turbidity := FormData.turbidity prev;
       FormData.temperature := value;
       FormData.dissolvedOxygen := FormData.dissolvedOxygen prev |}
  else if String.eqb field "dissolvedOxygen" then
    {| FormData.pH := FormData.pH prev; FormData.turbidity := FormData.turbidity prev;
       FormData.temperature := FormData.temperature prev;
       FormData.dissolvedOxygen := value |}
  else prev.

(** [onChange={(e) => handleInputChange(field, e.target.value)}] on an
    [<Input type="number">] holding the text [typed]. *)
Definition onChange (field typed : string) (s : State) : State :=
  {| formData := handleInputChange field (number_input_value typed) (formData s);
     lastReading := lastReading s |}.

(** Every field holds what a number input delivers: the empty string or
    a valid floating-point number. *)
Definition from_number_inputs (formData : FormData.t) : Prop :=
  number_input_value (FormData.pH formData) = FormData.pH formData /\
  number_input_value (FormData.turbidity formData) = FormData.turbidity formData /\
  number_input_value (FormData.temperature formData) = FormData.temperature formData /\
  number_input_value (FormData.dissolvedOxygen formData)
  = FormData.dissolvedOxygen formData.

(** [getStatus(value, min, max, optimal)] *)
Definition getStatus (value min max : number) (optimal : number * number) : Status :=
  if (value <? min) || (value >? max) then danger
  else if (value >=? fst optimal) && (value <=? snd optimal) then good
  else warning.

(** [handleSubmit]: the new state, and the reading handed to [onSubmit]. *)
Definition handleSubmit (s : State) : M (State * ManualReadingData) :=
  now <- Date_now ;;
  let reading :=
    {| pH := parseFloat (FormData.pH (formData s));
       turbidity := parseFloat (FormData.turbidity (formData s));
       temperature := parseFloat (FormData.temperature (formData s));
       dissolvedOxygen := parseFloat (FormData.dissolvedOxygen (formData s));
       timestamp := now;
       location := "Hyderabad" |} in
  ret ({| formData := formData s; lastReading := Some reading |}, reading).

(** [formData.pH && formData.turbidity && formData.temperature &&
    formData.dissolvedOxygen] *)
Definition isFormValid (formData : FormData.t) : string :=
  and_then
    (and_then (and_then (FormData.pH formData) (FormData.turbidity formData))
       (FormData.temperature formData))
    (FormData.dissolvedOxygen formData).

(** The submit button's [disabled={!isFormValid}]. *)
Definition submit_disabled (formData : FormData.t) : bool :=
  negb (truthy (isFormValid formData)).

(** The four inputs as declared: [type="number" step="0.1"], with
    [min="0" max="14"] for pH and [min="0"] for turbidity and dissolved
    oxygen. *)
Definition pH_input : NumberInput :=
  {| input_min := Some 0%Q; input_max := Some 14%Q; input_step := 0.1%Q |}.
Definition turbidity_input : NumberInput :=
  {| input_min := Some 0%Q; input_max := None; input_step := 0.1%Q |}.
Definition temperature_input : NumberInput :=
  {| input_min := None; input_max := None; input_step := 0.1%Q |}.
Definition dissolvedOxygen_input : NumberInput :=
  {| input_min := Some 0%Q; input_max := None; input_step := 0.1%Q |}.

(** The constraint validation of the form, which the browser runs before
    it fires the submit event (the form has no [noValidate]).
    [attributes] holds the [value] content attribute of each input, which
    React writes while the input is not focused: it matters to the step
    base of the temperature input only, which declares no [min]. *)
Definition checkValidity (attributes formData : FormData.t) : bool :=
  satisfies_constraints pH_input (FormData.pH attributes) (FormData.pH formData)
  && satisfies_constraints turbidity_input (FormData.turbidity attributes)
       (FormData.turbidity formData)
  && satisfies_constraints temperature_input (FormData.temperature attributes)
       (FormData.temperature formData)
  && satisfies_constraints dissolvedOxygen_input
       (FormData.dissolvedOxygen attributes) (FormData.dissolvedOxygen formData).

(** A submit request on the form: a disabled submit button blocks it, and
    so does a field that fails constraint validation; otherwise the submit
    event fires and [handleSubmit] runs. *)
Definition submit (attributes : FormData.t) (s : State)
  : M (State * option ManualReadingData) :=
  if submit_disabled (formData s) then ret (s, None)
  else if checkValidity attributes (formData s) then
    r <- handleSubmit s ;; ret (fst r, Some (snd r))
  else ret (s, None).

(** The form after a sequence of change events, each the field it comes
    from and the text its input holds, oldest first. *)
Definition changes (events : list (string * string)) (s : State) : State :=
  fold_left (fun s' event => onChange (fst event) (snd event) s') events s.

(** The statuses of the four result badges of the analysis card. *)
Definition pH_status (r : ManualReadingData) : Status :=
  getStatus (pH r) (Fin 6.0) (Fin 8.5) (Fin 6.5, Fin 7.5).
Definition turbidity_status (r : ManualReadingData) : Status :=
  getStatus (turbidity r) (Fin 0) (Fin 4) (Fin 0, Fin 1).
Definition temperature_status (r : ManualReadingData) : Status :=
  getStatus (temperature r) (Fin 0) (Fin 35) (Fin 15, Fin 25).
Definition dissolvedOxygen_status (r : ManualReadingData) : Status :=
  getStatus (dissolvedOxygen r) (Fin 5) (Fin 15) (Fin 7, Fin 12).

End ManualWaterQualityInput.

(* ================================================================== *)
(** * The multi-site dashboard                                         *)
(* ================================================================== *)

Module Dashboard.
Import JS.
Local Open Scope number_scope.

Inductive WaterBodyType : Type := lake | river | reservoir | groundwater.

Record WaterBody : Type := {
  id : string;
  name : string;
  location : string;
  type : WaterBodyType
}.

(** A reading.  [timestamp] is the instant (milliseconds since the epoch)
    that the source keeps as its [toISOString()] rendering. *)
Record WaterQualityData : Type := {
  pH : number;
  turbidity : number;
  temperature : number;
  dissolvedOxygen : number;
  timestamp : Z
}.

Definition waterBodies : list WaterBody :=
  [ {| id := "hussain-sagar"; name := "Hussain Sagar Lake";
       location := "Central Hyderabad"; type := lake |};
    {| id := "musi-river"; name := "Musi River";
       location := "Old City"; type := river |};
    {| id := "himayat-sagar"; name := "Himayat Sagar";
       location := "Rangareddy"; type := reservoir |};
    {| id := "osman-sagar"; name := "Osman Sagar";
       location := "Gandipet"; type := reservoir |};
    {| id := "durgam-cheruvu"; name := "Durgam Cheruvu";
       location := "Hi-Tech City"; type := lake |};
    {| id := "groundwater-1"; name := "Groundwater - Jubilee Hills";
       location := "Jubilee Hills"; type := groundwater |} ].

Module Baseline.
Record t : Type := {
  pH : number;
  turbidity : number;
  temperature : number;
  dissolvedOxygen : number
}.
End Baseline.

Definition baselines : gmap string Baseline.t :=
  list_to_map
    [ ("hussain-sagar"%string,
       {| Baseline.pH := Fin 7.8; Baseline.turbidity := Fin 2.5;
          Baseline.temperature := Fin 24; Baseline.dissolvedOxygen := Fin 6.5 |});
      ("musi-river"%string,
       {| Baseline.pH := Fin 6.8; Baseline.turbidity := Fin 4.0;
          Baseline.temperature := Fin 26; Baseline.dissolvedOxygen := Fin 5.5 |});
      ("himayat-sagar"%string,
       {| Baseline.pH := Fin 7.2; Baseline.turbidity := Fin 1.2;
          Baseline.temperature := Fin 22; Baseline.dissolvedOxygen := Fin 8.0 |});
      ("osman-sagar"%string,
       {| Baseline.pH := Fin 7.1; Baseline.turbidity := Fin 1.0;
          Baseline.temperature := Fin 21; Baseline.dissolvedOxygen := Fin 8.5 |});
      ("durgam-cheruvu"%string,
       {| Baseline.pH := Fin 7.5; Baseline.turbidity := Fin 1.8;
          Baseline.temperature := Fin 23; Baseline.dissolvedOxygen := Fin 7.2 |});
      ("groundwater-1"%string,
       {| Baseline.pH := Fin 6.9; Baseline.turbidity := Fin 0.5;
          Baseline.temperature := Fin 25; Baseline.dissolvedOxygen := Fin 7.8 |}) ].

(** [baselines[waterBodyId] || baselines['hussain-sagar']] *)
Definition getWaterBodyBaseline (waterBodyId : string) : member Baseline.t :=
  or_else (get baselines waterBodyId) (get baselines "hussain-sagar").

Definition generateWaterBodyData (waterBodyId : string) : M WaterQualityData :=
  let baseline := getWaterBodyBaseline waterBodyId in
  r1 <- Math_random ;;
  r2 <- Math_random ;;
  r3 <- Math_random ;;
  r4 <- Math_random ;;
  now <- Date_now ;;
  ret {| pH := num_prop Baseline.pH baseline + (r1 - Fin 0.5) * Fin 1.0;
         turbidity :=
           Math_max (Fin 0.1)
             (num_prop Baseline.turbidity baseline + (r2 - Fin 0.5) * Fin 1.5);
         temperature :=
           num_prop Baseline.temperature baseline + (r3 - Fin 0.5) * Fin 3.0;
         dissolvedOxygen :=
           Math_max (Fin 3)
             (num_prop Baseline.dissolvedOxygen baseline + (r4 - Fin 0.5) * Fin 2.0);
         timestamp := now |}.

(** The component's state: [currentData] and [historicalData], keyed by
    site id.  The keys are site ids only, none of which is a name
    inherited from [Object.prototype], so [prev[id]] is an own-property
    lookup. *)
Record State : Type := {
  currentData : gmap string WaterQualityData;
  historicalData : gmap string (list WaterQualityData);
  manualReadings : list ManualWaterQualityInput.ManualReadingData
}.

(** The state [useState] starts from. *)
Definition initial : State :=
  {| currentData := ∅; historicalData := ∅; manualReadings := [] |}.

(** One round of the loop [for (let i = 0; i < 10; i++)] of the
    initialization effect: the generated reading with its timestamp
    replaced, pushed onto [historical]. *)
Definition seed_entry (waterBodyId : string)
    (historical : list WaterQualityData) (i : Z) : M (list WaterQualityData) :=
  d <- generateWaterBodyData waterBodyId ;;
  now <- Date_now ;;
  ret (historical ++
         [ {| pH := pH d; turbidity := turbidity d; temperature := temperature d;
              dissolvedOxygen := dissolvedOxygen d;
              timestamp := (now - (10 - i) * 3000)%Z |} ]).

(** The indices [0, 1, ..., n-1] a counting loop runs through. *)
Definition upto (n : nat) : list Z := map Z.of_nat (seq 0 n).

(** The callback of [waterBodies.forEach] in the initialization effect;
    [init] is the pair of [initData] and [initHistorical]. *)
Definition initialize_site
    (init : gmap string WaterQualityData * gmap string (list WaterQualityData))
    (waterBody : WaterBody)
  : M (gmap string WaterQualityData * gmap string (list WaterQualityData)) :=
  cur <- generateWaterBodyData (id waterBody) ;;
  historical <- foldM (seed_entry (id waterBody)) (upto 10) [] ;;
  ret (<[id waterBody := cur]> (fst init),
       <[id waterBody := historical]> (snd init)).

(** The initialization effect, run on the state [s] of the mounted
    component. *)
Definition initialize (s : State) : M State :=
  init <- foldM initialize_site waterBodies (∅, ∅) ;;
  ret {| currentData := fst init; historicalData := snd init;
         manualReadings := manualReadings s |}.

(** The callback of [waterBodies.forEach] in the updater passed to
    [setCurrentData]. *)
Definition refresh_site (updated : gmap string WaterQualityData)
    (waterBody : WaterBody) : M (gmap string WaterQualityData) :=
  d <- generateWaterBodyData (id waterBody) ;;
  ret (<[id waterBody := d]> updated).

(** The updater passed to [setCurrentData] by the interval callback. *)
Definition tick_current (prev : gmap string WaterQualityData)
  : M (gmap string WaterQualityData) :=
  foldM refresh_site waterBodies prev.

(** The callback of [waterBodies.forEach] in the updater passed to
    [setHistoricalData]:
    [[...(prev[waterBody.id] || []), newData].slice(-20)]. *)
Definition append_site (prev updated : gmap string (list WaterQualityData))
    (waterBody : WaterBody) : M (gmap string (list WaterQualityData)) :=
  newData <- generateWaterBodyData (id waterBody) ;;
  ret (<[id waterBody :=
           slice (-20) (default [] (prev !! id waterBody) ++ [newData])]>
         updated).

(** The updater passed to [setHistoricalData] by the interval callback. *)
Definition tick_history (prev : gmap string (list WaterQualityData))
  : M (gmap string (list WaterQualityData)) :=
  foldM (append_site prev) waterBodies prev.

(** One firing of the 3-second interval. *)
Definition tick (s : State) : M State :=
  cur <- tick_current (currentData s) ;;
  hist <- tick_history (historicalData s) ;;
  ret {| currentData := cur; historicalData := hist;
         manualReadings := manualReadings s |}.

(** The state after [n] firings of the interval. *)
Fixpoint ticks (n : nat) (s : State) : M State :=
  match n with
  | O => ret s
  | S n' => s' <- tick s ;; ticks n' s'
  end.

(** The component from mount on: initialization, then [n] ticks. *)
Definition run (n : nat) : M State :=
  s <- initialize initial ;; ticks n s.

(** [handleManualReading]: [setManualReadings(prev => [reading, ...prev])] *)
Definition handleManualReading
    (reading : ManualWaterQualityInput.ManualReadingData) (s : State) : State :=
  {| currentData := currentData s; historicalData := historicalData s;
     manualReadings := reading :: manualReadings s |}.

(** [historicalData[selectedWaterBody] || []], for a selection that is
    not a name inherited from [Object.prototype]: the selector offers the
    site ids only. *)
Definition selectedHistoricalData (s : State) (selectedWaterBody : string)
  : list WaterQualityData :=
  default [] (historicalData s !! selectedWaterBody).

(** [getStatus(value, min, max, optimal)] *)
Definition getStatus (value min max : number) (optimal : number * number) : Status :=
  if (value <? min) || (value >? max) then danger
  else if (value >=? fst optimal) && (value <=? snd optimal) then good
  else warning.

(** The [status] of the four parameter cards of a reading. *)
Definition pH_status (d : WaterQualityData) : Status :=
  getStatus (pH d) (Fin 6.0) (Fin 8.5) (Fin 6.5, Fin 7.5).
Definition turbidity_status (d : WaterQualityData) : Status :=
  getStatus (turbidity d) (Fin 0) (Fin 4) (Fin 0, Fin 1).
Definition temperature_status (d : WaterQualityData) : Status :=
  getStatus (temperature d) (Fin 0) (Fin 35) (Fin 15, Fin 25).
Definition dissolvedOxygen_status (d : WaterQualityData) : Status :=
  getStatus (dissolvedOxygen d) (Fin 5) (Fin 15) (Fin 7, Fin 12).

(** [currentData[selectedWaterBody]] *)
Definition selectedWaterBodyData (s : State) (selectedWaterBody : string)
  : member WaterQualityData :=
  get (currentData s) selectedWaterBody.

(** [waterBodies.find(wb => wb.id === selectedWaterBody)] *)
Definition selectedWaterBodyInfo (selectedWaterBody : string) : option WaterBody :=
  List.find (fun wb => String.eqb (id wb) selectedWaterBody) waterBodies.

(** The overview grid: [waterBodies.map(waterBody => { const data =
    currentData[waterBody.id]; if (!data) return null; ... })], a card
    with the site and its reading, or [null]. *)
Definition overview (s : State) : list (option (WaterBody * WaterQualityData)) :=
  map (fun waterBody =>
         match get (currentData s) (id waterBody) with
         | Own data => Some (waterBody, data)
         | Inherited _ | Undefined => None
         end)
      waterBodies.

(** The string a [type] of the union ['lake' | 'river' | 'reservoir' |
    'groundwater'] is. *)
Definition type_name (t : WaterBodyType) : string :=
  match t with
  | lake => "lake"
  | river => "river"
  | reservoir => "reservoir"
  | groundwater => "groundwater"
  end.

Definition colors : gmap string string :=
  list_to_map
    [ ("lake", "text-blue-600"); ("river", "text-green-600");
      ("reservoir", "text-purple-600"); ("groundwater", "text-orange-600") ]%string.

(** [colors[type] || 'text-gray-600']; every entry of [colors] is a
    non-empty string, so an own entry is truthy. *)
Definition getWaterBodyTypeColor (type : string) : member string :=
  or_else (get colors type) (Own "text-gray-600"%string).

(** [<ManualWaterQualityInput onSubmit={handleManualReading} />]: a
    submit request on the form of the manual tab, [form] being the state
    of the form and [s] the state of the dashboard. *)
Definition manual_submit
    (attributes : ManualWaterQualityInput.FormData.t)
    (form : ManualWaterQualityInput.State) (s : State)
  : M (ManualWaterQualityInput.State * State) :=
  r <- ManualWaterQualityInput.submit attributes form ;;
  ret (fst r,
       match snd r with
       | Some reading => handleManualReading reading s
       | None => s
       end).

End Dashboard.

(* ================================================================== *)
(** * The single-site dashboard                                        *)
(* ================================================================== *)

Module SingleSiteDashboard.
Import JS.
Local Open Scope number_scope.

Record WaterQualityData : Type := {
  pH : number;
  turbidity : number;
  temperature : number;
  dissolvedOxygen : number;
  timestamp : Z
}.

Record State : Type := {
  currentData : WaterQualityData;
  historicalData : list WaterQualityData
}.

(** The state [useState] starts from. *)
Definition initial : M State :=
  now <- Date_now ;;
  ret {| currentData :=
           {| pH := Fin 7.2; turbidity := Fin 1.5; temperature := Fin 22.3;
              dissolvedOxygen := Fin 8.5; timestamp := now |};
         historicalData := [] |}.

(** The four simulated parameters, drawn in source order. *)
Definition sample (stamp : M Z) : M WaterQualityData :=
  r1 <- Math_random ;;
  r2 <- Math_random ;;
  r3 <- Math_random ;;
  r4 <- Math_random ;;
  t <- stamp ;;
  ret {| pH := Fin 6.5 + r1 * Fin 2;
         turbidity := Fin 0.5 + r2 * Fin 3;
         temperature := Fin 20 + r3 * Fin 8;
         dissolvedOxygen := Fin 6 + r4 * Fin 4;
         timestamp := t |}.

(** One firing of the 3-second interval. *)
Definition tick (s : State) : M State :=
  newData <- sample Date_now ;;
  ret {| currentData := newData;
         historicalData := slice (-20) (historicalData s ++ [newData]) |}.

(** One round of the loop of the initialization effect. *)
Definition seed_entry (initialData : list WaterQualityData) (i : Z)
  : M (list WaterQualityData) :=
  d <- sample (now <- Date_now ;; ret (now - (10 - i) * 3000)%Z) ;;
  ret (initialData ++ [d]).

(** The initialization effect. *)
Definition initialize (s : State) : M State :=
  initialData <- foldM seed_entry (Dashboard.upto 10) [] ;;
  ret {| currentData := currentData s; historicalData := initialData |}.

Fixpoint ticks (n : nat) (s : State) : M State :=
  match n with
  | O => ret s
  | S n' => s' <- tick s ;; ticks n' s'
  end.

Definition run (n : nat) : M State :=
  s0 <- initial ;; s <- initialize s0 ;; ticks n s.

(** [getStatus(value, min, max, optimal)] *)
Definition getStatus (value min max : number) (optimal : number * number) : Status :=
  if (value <? min) || (value >? max) then danger
  else if (value >=? fst optimal) && (value <=? snd optimal) then good
  else warning.

(** The [status] of the four parameter cards of a reading. *)
Definition pH_status (d : WaterQualityData) : Status :=
  getStatus (pH d) (Fin 6.0) (Fin 8.5) (Fin 6.5, Fin 7.5).
Definition turbidity_status (d : WaterQualityData) : Status :=
  getStatus (turbidity d) (Fin 0) (Fin 4) (Fin 0, Fin 1).
Definition temperature_status (d : WaterQualityData) : Status :=
  getStatus (temperature d) (Fin 0) (Fin 35) (Fin 15, Fin 25).
Definition dissolvedOxygen_status (d : WaterQualityData) : Status :=
  getStatus (dissolvedOxygen d) (Fin 5) (Fin 15) (Fin 7, Fin 12).

End SingleSiteDashboard.

(* ================================================================== *)
(** * The classifier on binary64                                       *)
(* ================================================================== *)

Module Binary64.
Import Floats.PrimFloat.

(** [getStatus(value, min, max, optimal)] on primitive floats;
    [value > max] is [max < value]. *)
Definition getStatus (value min max : float) (optimal : float * float) : Status :=
  if (ltb value min || ltb max value)%bool then danger
  else if (leb (fst optimal) value && leb value (snd optimal))%bool then good
  else warning.

End Binary64.

(* ================================================================== *)
(** * The history buffer as the specification words it                 *)
(* ================================================================== *)

Module Spec.

(** "a non-empty parseable number": text that is not empty and that
    [parseFloat] reads as a number. *)
Definition parseable_number (text : string) : bool :=
  JS.truthy text && negb (JS.isNaN (JS.parseFloat text)).

(** "submission is enabled only when all four numeric fields are
    non-empty parseable numbers". *)
Definition submit_enabled (formData : ManualWaterQualityInput.FormData.t) : bool :=
  parseable_number (ManualWaterQualityInput.FormData.pH formData)
  && parseable_number (ManualWaterQualityInput.FormData.turbidity formData)
  && parseable_number (ManualWaterQualityInput.FormData.temperature formData)
  && parseable_number (ManualWaterQualityInput.FormData.dissolvedOxygen formData).


(** "keep only the last [n] entries". *)
Definition keep_last {A : Type} (n : nat) (l : list A) : list A :=
  rev (take n (rev l)).

(** "new history = previous history with reading appended, then
    truncated to keep only the last 20 entries (drop from the front)". *)
Definition append {A : Type} (history : list A) (reading : A) : list A :=
  keep_last 20 (history ++ [reading]).

End Spec.

(* ================================================================== *)
(** * Facts about the platform                                         *)
(* ================================================================== *)

Import JS.

Arguments Dashboard.generateWaterBodyData : simpl never.
Arguments Dashboard.tick : simpl never.
Arguments SingleSiteDashboard.sample : simpl never.
Arguments Dashboard.initialize : simpl never.
Arguments Dashboard.waterBodies : simpl never.
Arguments Dashboard.baselines : simpl never.
Arguments overflow_threshold : simpl never.

Section NumberFacts.

Local Open Scope number_scope.

Lemma Qlt_bool_iff (x y : Q) : Qlt_bool x y = true <-> (x < y)%Q.
Proof.
  unfold Qlt_bool. rewrite negb_true_iff. split; intros H.
  - apply Qnot_le_lt. intros Hle. apply Qle_bool_iff in Hle. congruence.
  - destruct (Qle_bool y x) eqn:E; [|reflexivity].
    apply Qle_bool_iff in E. exfalso. exact (Qlt_not_le _ _ H E).
Qed.

(** Every comparison against NaN is false. *)
Lemma compare_NaN_l (b : number) :
  (NaN <? b) = false /\ (NaN <=? b) = false /\
  (NaN >? b) = false /\ (NaN >=? b) = false.
Proof. destruct b; repeat split; reflexivity. Qed.

(** Away from NaN the order is total: [a < b] is the negation of [b <= a]. *)
Lemma ltb_negb_leb (a b : number) :
  a <> NaN -> b <> NaN -> (a <? b) = negb (b <=? a).
Proof.
  destruct a as [|s|x], b as [|t|y]; try congruence; intros _ _; cbn.
  - destruct s, t; reflexivity.
  - destruct s; reflexivity.
  - reflexivity.
  - reflexivity.
Qed.

Lemma isFinite_not_NaN (a : number) : isFinite a = true -> a <> NaN.
Proof. destruct a; cbn; congruence. Qed.

End NumberFacts.

(* ================================================================== *)
(** * The classifier                                                   *)
(* ================================================================== *)

Section Classifier.

Local Open Scope number_scope.

(** The three copies of [getStatus] are the same function. *)
Lemma getStatus_copies (value min max : number) (optimal : number * number) :
  ManualWaterQualityInput.getStatus value min max optimal
    = Dashboard.getStatus value min max optimal /\
  SingleSiteDashboard.getStatus value min max optimal
    = Dashboard.getStatus value min max optimal.
Proof. split; reflexivity. Qed.

(** C1.  For a finite value and thresholds that are numbers, [getStatus]
    returns ['danger'] exactly when the value is below [min] or above
    [max], ['good'] exactly when it is within [min, max] and within the
    optimal range, and ['warning'] exactly when neither holds; the result
    is one of the three statuses.  On pH thresholds 7.0 is good, 5.9 is
    danger and 6.2 is warning. *)
Theorem getStatus_classification :
  (forall value min max optimalLow optimalHigh : number,
      isFinite value = true -> min <> NaN -> max <> NaN ->
      let status := Dashboard.getStatus value min max (optimalLow, optimalHigh) in
      (status = danger <-> (value < min \/ value > max)) /\
      (status = good <->
         (min <= value /\ value <= max) /\
         (optimalLow <= value /\ value <= optimalHigh)) /\
      (status = warning <->
         ~ (value < min \/ value > max) /\
         ~ (optimalLow <= value /\ value <= optimalHigh)) /\
      (status = good \/ status = warning \/ status = danger)) /\
  Dashboard.getStatus (Fin 7.0) (Fin 6.0) (Fin 8.5) (Fin 6.5, Fin 7.5) = good /\
  Dashboard.getStatus (Fin 5.9) (Fin 6.0) (Fin 8.5) (Fin 6.5, Fin 7.5) = danger /\
  Dashboard.getStatus (Fin 6.2) (Fin 6.0) (Fin 8.5) (Fin 6.5, Fin 7.5) = warning.
Proof.
  split; [|repeat split; reflexivity].
  intros value min max oL oH Hfin Hmin Hmax status.
  apply isFinite_not_NaN in Hfin.
  assert (Hlo : (min <=? value) = negb (value <? min))
    by (rewrite (ltb_negb_leb value min) by assumption; now rewrite negb_involutive).
  assert (Hhi : (value <=? max) = negb (value >? max))
    by (unfold gtb; rewrite (ltb_negb_leb max value) by assumption;
        now rewrite negb_involutive).
  subst status. unfold Dashboard.getStatus, lt, gt, le, ge, geb in *. cbn [fst snd].
  rewrite Hlo, Hhi.
  destruct (value <? min), (value >? max), (oL <=? value), (value <=? oH); cbn;
    repeat split; intros; try discriminate; try tauto; intuition discriminate.
Qed.

Lemma getStatus_classification_witness :
  Dashboard.getStatus (Fin 1.5) (Fin 0) (Fin 4) (Fin 0, Fin 1) = warning <->
  ~ ((Fin 1.5 < Fin 0) \/ (Fin 1.5 > Fin 4)) /\
  ~ ((Fin 0 <= Fin 1.5) /\ (Fin 1.5 <= Fin 1)).
Proof.
  apply (proj1 getStatus_classification (Fin 1.5) (Fin 0) (Fin 4) (Fin 0) (Fin 1));
    [reflexivity | discriminate | discriminate].
Defined.

End Classifier.

(* ================================================================== *)
(** * The classifier on binary64                                       *)
(* ================================================================== *)

Section ClassifierBinary64.

Import Floats.PrimFloat Floats.SpecFloat Floats.FloatOps Floats.FloatAxioms.

Lemma Prim2SF_nan (v : float) : is_nan v = true -> Prim2SF v = S754_nan.
Proof.
  intros H. unfold Prim2SF. now rewrite H.
Qed.

Lemma binary64_compare_nan (v x : float) :
  is_nan v = true ->
  ltb v x = false /\ ltb x v = false /\ leb v x = false /\ leb x v = false.
Proof.
  intros H. apply Prim2SF_nan in H.
  rewrite !ltb_spec, !leb_spec, H. unfold SFltb, SFleb.
  destruct (Prim2SF x); repeat split; reflexivity.
Qed.

(** A NaN value is classified warning on binary64 as well. *)
Lemma binary64_getStatus_nan (v min max : float) (optimal : float * float) :
  is_nan v = true -> Binary64.getStatus v min max optimal = warning.
Proof.
  intros H. unfold Binary64.getStatus.
  destruct (binary64_compare_nan v min H) as (-> & _ & _ & _).
  destruct (binary64_compare_nan v max H) as (_ & -> & _ & _).
  destruct (binary64_compare_nan v (fst optimal) H) as (_ & _ & _ & ->).
  reflexivity.
Qed.

Lemma SFcompare_antisym (x y : spec_float) :
  SFcompare y x = option_map CompOpp (SFcompare x y).
Proof.
  destruct x as [s1 | s1 | | s1 m1 e1], y as [s2 | s2 | | s2 m2 e2]; cbn;
    try reflexivity; try (destruct s1; reflexivity); try (destruct s2; reflexivity);
    try (destruct s1, s2; reflexivity).
  assert (Hm : Pos.compare_cont Eq m2 m1 = CompOpp (Pos.compare_cont Eq m1 m2))
    by (symmetry; apply (Pos.compare_cont_antisym m1 m2 Eq)).
  destruct s1, s2; try reflexivity; f_equal;
    rewrite (Z.compare_antisym e1 e2), Hm;
    destruct (e1 ?= e2)%Z; cbn; try reflexivity;
    destruct (Pos.compare_cont Eq m1 m2); reflexivity.
Qed.

Lemma Prim2SF_not_nan (v : float) : is_nan v = false -> Prim2SF v <> S754_nan.
Proof.
  unfold is_nan. rewrite eqb_spec, negb_false_iff. unfold SFeqb.
  intros H E. rewrite E in H. discriminate.
Qed.

Lemma binary64_ltb_negb_leb (x y : float) :
  is_nan x = false -> is_nan y = false -> ltb x y = negb (leb y x).
Proof.
  intros Hx Hy. apply Prim2SF_not_nan in Hx, Hy.
  rewrite ltb_spec, leb_spec. unfold SFltb, SFleb.
  rewrite (SFcompare_antisym (Prim2SF x) (Prim2SF y)).
  destruct (SFcompare (Prim2SF x) (Prim2SF y)) as [[]|] eqn:E; try reflexivity.
  exfalso. destruct (Prim2SF x), (Prim2SF y); cbn in E; congruence.
Qed.

(** The classification of C1 on binary64: for a value and thresholds
    that are not NaN, danger is below [min] or above [max], good is
    within both ranges, and warning is the rest. *)
Lemma binary64_getStatus_classification
    (value min max optimalLow optimalHigh : float) :
  is_nan value = false -> is_nan min = false -> is_nan max = false ->
  let status := Binary64.getStatus value min max (optimalLow, optimalHigh) in
  (status = danger <-> (ltb value min = true \/ ltb max value = true)) /\
  (status = good <->
     (leb min value = true /\ leb value max = true) /\
     (leb optimalLow value = true /\ leb value optimalHigh = true)) /\
  (status = warning <->
     ~ (ltb value min = true \/ ltb max value = true) /\
     ~ (leb optimalLow value = true /\ leb value optimalHigh = true)).
Proof.
  intros Hv Hmin Hmax status. subst status. unfold Binary64.getStatus.
  cbn [fst snd].
  rewrite (binary64_ltb_negb_leb value min Hv Hmin).
  rewrite (binary64_ltb_negb_leb max value Hmax Hv).
  destruct (leb min value), (leb value max), (leb optimalLow value),
    (leb value optimalHigh); cbn;
    repeat split; intros; try discriminate; try tauto; intuition discriminate.
Qed.

(** The three examples of C1, evaluated on binary64; the literals 5.9 and
    6.2 denote the nearest binary64 values, as they do in the source. *)
#[warnings="-inexact-float"]
Lemma binary64_getStatus_examples :
  Binary64.getStatus 7.0 6.0 8.5 (6.5, 7.5)%float = good /\
  Binary64.getStatus 5.9 6.0 8.5 (6.5, 7.5)%float = danger /\
  Binary64.getStatus 6.2 6.0 8.5 (6.5, 7.5)%float = warning.
Proof. repeat split; vm_compute; reflexivity. Qed.

(** C10.  [getStatus] is a total function on all numbers, and a NaN value
    is classified ['warning'] whatever the thresholds and the optimal
    range are, because every comparison against NaN is false: in the
    dashboard and in the manual-entry form, and likewise on primitive
    binary64 floats. *)
Theorem getStatus_NaN_warning :
  (forall (min max : number) (optimal : number * number),
      Dashboard.getStatus NaN min max optimal = warning /\
      ManualWaterQualityInput.getStatus NaN min max optimal = warning) /\
  (forall (min max : float) (optimal : float * float),
      Binary64.getStatus nan min max optimal = warning).
Proof.
  split.
  - intros min max optimal.
    unfold Dashboard.getStatus, ManualWaterQualityInput.getStatus, gtb, geb.
    destruct min, max, optimal as [[] []]; split; reflexivity.
  - intros min max optimal. now apply binary64_getStatus_nan.
Qed.

End ClassifierBinary64.

(* ================================================================== *)
(** * Arrays and loops                                                 *)
(* ================================================================== *)

Section ArrayFacts.

Context {A : Type}.
Implicit Types l : list A.

Lemma slice_last l : slice (-20) l = drop (length l - 20) l.
Proof. unfold slice. cbn. f_equal. lia. Qed.

Lemma slice_last_length l : (length (slice (-20) l) <= 20)%nat.
Proof. rewrite slice_last, length_drop. lia. Qed.

Lemma slice_last_short l : (length l <= 20)%nat -> slice (-20) l = l.
Proof.
  intros H. rewrite slice_last.
  replace (length l - 20)%nat with 0%nat by lia. reflexivity.
Qed.

Lemma slice_last_suffix l : l = take (length l - 20) l ++ slice (-20) l.
Proof. rewrite slice_last. symmetry. apply take_drop. Qed.

Lemma keep_last_drop (n : nat) l : Spec.keep_last n l = drop (length l - n) l.
Proof.
  unfold Spec.keep_last. rewrite firstn_rev. apply rev_involutive.
Qed.

(** The code's truncation is the specification's. *)
Lemma slice_last_keep_last l : slice (-20) l = Spec.keep_last 20 l.
Proof. now rewrite slice_last, keep_last_drop. Qed.

End ArrayFacts.

(** A [forEach] whose callback stores one entry per element under the
    element's key: afterwards a key holds what the callback stored for
    it, and every other key is untouched.  [steady] is a property of the
    world the callback keeps, such as a clock that stands still. *)
Section ForEachInsert.

Context {S A V : Type}.
Variable proj : S -> gmap string V.
Variable key : A -> string.
Variable body : S -> A -> M S.
Variable steady : World -> Prop.
Variable stored : string -> V -> Prop.
Hypothesis body_steady :
  forall (s : S) (x : A) (w : World), steady w -> steady (snd (body s x w)).
Hypothesis body_inserts :
  forall (s : S) (x : A) (w : World),
    steady w ->
    exists v, stored (key x) v /\
              proj (fst (body s x w)) = <[key x := v]> (proj s).

Lemma foldM_insert_lookup (xs : list A) (s : S) (w : World) (k : string) :
  steady w ->
  let res := proj (fst (foldM body xs s w)) in
  ((k ∉ map key xs) /\ res !! k = proj s !! k) \/
  (k ∈ map key xs /\ exists v, stored k v /\ res !! k = Some v).
Proof.
  revert s w. induction xs as [|x xs IH]; intros s w Hw; cbn.
  - left. split; [apply not_elem_of_nil | reflexivity].
  - unfold bind. destruct (body s x w) as [s' w'] eqn:E.
    assert (Hw' : steady w').
    { replace w' with (snd (body s x w)) by now rewrite E.
      now apply body_steady. }
    destruct (IH s' w' Hw') as [[Hk Hl] | [Hk Hv]].
    + destruct (body_inserts s x w Hw) as (v & Hv & Hp).
      rewrite E in Hp. cbn in Hp. rewrite Hl, Hp.
      destruct (decide (key x = k)) as [<- | Hne].
      * right. split; [apply list_elem_of_here |].
        exists v. split; [assumption | apply lookup_insert_eq].
      * left. split.
        -- rewrite not_elem_of_cons. split; [congruence | assumption].
        -- now apply lookup_insert_ne.
    + right. split; [now apply list_elem_of_further | assumption].
Qed.

End ForEachInsert.

(* ================================================================== *)
(** * The history buffer                                               *)
(* ================================================================== *)

Section HistoryBuffer.

Import Dashboard.

Lemma append_site_inserts
    (prev updated : gmap string (list WaterQualityData))
    (x : WaterBody) (w : World) :
  exists v,
    (exists w1, v = slice (-20) (default [] (prev !! id x)
                                   ++ [fst (generateWaterBodyData (id x) w1)])) /\
    fst (append_site prev updated x w) = <[id x := v]> updated.
Proof.
  unfold append_site, bind, ret.
  destruct (generateWaterBodyData (id x) w) as [d w'] eqn:E.
  eexists. split; [exists w; rewrite E; reflexivity | reflexivity].
Qed.

(** What one tick leaves in [historicalData] under key [k]. *)
Lemma tick_history_lookup
    (prev : gmap string (list WaterQualityData)) (w : World) (k : string) :
  let res := fst (tick_history prev w) in
  ((k ∉ map id waterBodies) /\ res !! k = prev !! k) \/
  (k ∈ map id waterBodies /\
   exists w1, res !! k =
     Some (slice (-20) (default [] (prev !! k)
                          ++ [fst (generateWaterBodyData k w1)]))).
Proof.
  pose proof (foldM_insert_lookup (fun m => m) id (append_site prev)
                (fun _ => True)
                (fun k v => exists w1,
                     v = slice (-20) (default [] (prev !! k)
                                        ++ [fst (generateWaterBodyData k w1)]))
                (fun _ _ _ _ => I)
                (fun updated x w _ => append_site_inserts prev updated x w)
                waterBodies prev w k I) as H.
  cbn zeta in H. unfold tick_history.
  destruct H as [H | (Hk & v & (w1 & ->) & Hv)]; [left; exact H | right].
  split; [exact Hk | exists w1; exact Hv].
Qed.

Lemma tick_historicalData (s : State) (w : World) :
  historicalData (fst (tick s w))
    = fst (tick_history (historicalData s)
             (snd (tick_current (currentData s) w))).
Proof.
  unfold tick, bind, ret.
  destruct (tick_current (currentData s) w) as [cur w1]. cbn [snd].
  destruct (tick_history (historicalData s) w1) as [hist w2].
  reflexivity.
Qed.

(** A tick bounds the history of every site, and leaves every other key
    as it was. *)
Lemma tick_bounded (s : State) (w : World) (k : string) :
  (length (selectedHistoricalData s k) <= 20)%nat ->
  (length (selectedHistoricalData (fst (tick s w)) k) <= 20)%nat.
Proof.
  intros Hs. unfold selectedHistoricalData in *. rewrite tick_historicalData.
  destruct (tick_history_lookup (historicalData s)
              (snd (tick_current (currentData s) w)) k) as [[_ ->] | [_ [w1 ->]]].
  - exact Hs.
  - cbn. apply slice_last_length.
Qed.

Lemma ticks_bounded (n : nat) (s : State) (w : World) (k : string) :
  (length (selectedHistoricalData s k) <= 20)%nat ->
  (length (selectedHistoricalData (fst (ticks n s w)) k) <= 20)%nat.
Proof.
  revert s w. induction n as [|n IH]; intros s w Hs; cbn [ticks].
  - exact Hs.
  - unfold bind. destruct (tick s w) as [s' w'] eqn:E.
    apply IH. replace s' with (fst (tick s w)) by now rewrite E.
    now apply tick_bounded.
Qed.

Lemma seed_entry_length (k : string) (idx : list Z)
    (acc : list WaterQualityData) (w : World) :
  length (fst (foldM (seed_entry k) idx acc w)) = (length acc + length idx)%nat.
Proof.
  revert acc w. induction idx as [|i idx IH]; intros acc w; cbn [foldM].
  - cbn. lia.
  - unfold bind at 1. destruct (seed_entry k acc i w) as [acc' w'] eqn:E.
    rewrite IH. unfold seed_entry, bind, ret in E.
    destruct (generateWaterBodyData k w) as [d w1].
    destruct (Date_now w1) as [now w2]. injection E as <- _.
    rewrite length_app. cbn. lia.
Qed.

(** No operation of the code touches the oracles themselves, and the
    clock cursor only moves forward: a clock that stands still keeps
    standing still. *)
Lemma generateWaterBodyData_clock (now : Z) (k : string) (w : World) :
  clock_at now w -> clock_at now (snd (generateWaterBodyData k w)).
Proof.
  intros Hw i. unfold generateWaterBodyData, bind, Math_random, Date_now, ret.
  cbn. rewrite <- Nat.add_succ_r. apply Hw.
Qed.

Lemma seed_entry_clock (now : Z) (k : string)
    (acc : list WaterQualityData) (i : Z) (w : World) :
  clock_at now w ->
  clock_at now (snd (seed_entry k acc i w)) /\
  map timestamp (fst (seed_entry k acc i w))
  = map timestamp acc ++ [now - (10 - i) * 3000].
Proof.
  intros Hw. pose proof (generateWaterBodyData_clock now k w Hw) as Hg.
  unfold seed_entry, bind, ret.
  destruct (generateWaterBodyData k w) as [d w1]. cbn [snd] in Hg.
  unfold Date_now. cbn [fst snd]. split.
  - intros j. cbn. rewrite <- Nat.add_succ_r. apply Hg.
  - rewrite map_app. cbn. specialize (Hg 0%nat). rewrite Nat.add_0_r in Hg.
    now rewrite Hg.
Qed.

Lemma seed_loop_clock (now : Z) (k : string) (idx : list Z)
    (acc : list WaterQualityData) (w : World) :
  clock_at now w ->
  clock_at now (snd (foldM (seed_entry k) idx acc w)) /\
  map timestamp (fst (foldM (seed_entry k) idx acc w))
  = map timestamp acc ++ map (fun i => now - (10 - i) * 3000) idx.
Proof.
  revert acc w. induction idx as [|i idx IH]; intros acc w Hw; cbn [foldM].
  - cbn. split; [exact Hw | now rewrite app_nil_r].
  - unfold bind at 1 2.
    destruct (seed_entry_clock now k acc i w Hw) as [Hw' Ht].
    destruct (seed_entry k acc i w) as [acc' w']. cbn [fst snd] in *.
    destruct (IH acc' w' Hw') as [Hw'' Ht'].
    split; [exact Hw'' |]. rewrite Ht', Ht, <- app_assoc. reflexivity.
Qed.

(** Initialization, for any property [steady] of the world that the
    generator and the seeding loop keep. *)
Section InitializeLookup.

Variable steady : World -> Prop.
Hypothesis generate_steady :
  forall (k : string) (w : World),
    steady w -> steady (snd (generateWaterBodyData k w)).
Hypothesis seed_loop_steady :
  forall (k : string) (w : World),
    steady w -> steady (snd (foldM (seed_entry k) (upto 10) [] w)).

Lemma initialize_site_steady
    (init : gmap string WaterQualityData * gmap string (list WaterQualityData))
    (x : WaterBody) (w : World) :
  steady w -> steady (snd (initialize_site init x w)).
Proof.
  intros Hw. pose proof (generate_steady (id x) w Hw) as Hg.
  unfold initialize_site, bind, ret.
  destruct (generateWaterBodyData (id x) w) as [cur w1]. cbn [snd] in Hg.
  pose proof (seed_loop_steady (id x) w1 Hg) as Hl.
  destruct (foldM (seed_entry (id x)) (upto 10) [] w1) as [h w2].
  exact Hl.
Qed.

Lemma initialize_site_inserts
    (init : gmap string WaterQualityData * gmap string (list WaterQualityData))
    (x : WaterBody) (w : World) :
  steady w ->
  exists v,
    (exists w1, steady w1 /\
                v = fst (foldM (seed_entry (id x)) (upto 10) [] w1)) /\
    snd (fst (initialize_site init x w)) = <[id x := v]> (snd init).
Proof.
  intros Hw. pose proof (generate_steady (id x) w Hw) as Hg.
  unfold initialize_site, bind, ret.
  destruct (generateWaterBodyData (id x) w) as [cur w1]. cbn [snd] in Hg.
  destruct (foldM (seed_entry (id x)) (upto 10) [] w1) as [h w2] eqn:E.
  exists h. split; [exists w1; split; [exact Hg | now rewrite E] | reflexivity].
Qed.

(** What initialization leaves in [historicalData] under key [k]. *)
Lemma initialize_lookup (s : State) (w : World) (k : string) :
  steady w ->
  let res := historicalData (fst (initialize s w)) in
  ((k ∉ map id waterBodies) /\ res !! k = None) \/
  (k ∈ map id waterBodies /\
   exists w1, steady w1 /\
              res !! k = Some (fst (foldM (seed_entry k) (upto 10) [] w1))).
Proof.
  intros Hw.
  pose proof (foldM_insert_lookup snd id initialize_site steady
                (fun k v => exists w1,
                     steady w1 /\
                     v = fst (foldM (seed_entry k) (upto 10) [] w1))
                initialize_site_steady
                initialize_site_inserts waterBodies (∅, ∅) w k Hw) as H.
  cbn zeta in H. unfold initialize, bind, ret.
  destruct (foldM initialize_site waterBodies (∅, ∅) w) as [init w'].
  cbn in *.
  destruct H as [[Hk H] | (Hk & v & (w1 & Hw1 & ->) & Hv)]; [left | right].
  - split; [exact Hk | rewrite H; apply lookup_empty].
  - split; [exact Hk | exists w1; split; [exact Hw1 | exact Hv]].
Qed.

End InitializeLookup.

(** Initialization leaves every key with at most 10 entries, and every
    site with exactly 10. *)
Lemma history_bounded_after_initialize :
  (forall (w : World) (k : string),
      (length (selectedHistoricalData (fst (initialize initial w)) k) <= 10)%nat) /\
  (forall w : World,
      Forall (fun waterBody =>
                length (selectedHistoricalData (fst (initialize initial w))
                          (id waterBody)) = 10%nat)
             waterBodies).
Proof.
  assert (Hinit : forall w k,
             (length (selectedHistoricalData (fst (initialize initial w)) k)
              <= 10)%nat /\
             (k ∈ map id waterBodies ->
              length (selectedHistoricalData (fst (initialize initial w)) k)
              = 10%nat)).
  { intros w k. unfold selectedHistoricalData.
    destruct (initialize_lookup (fun _ => True) (fun _ _ _ => I) (fun _ _ _ => I)
                initial w k I) as [[Hk ->] | [Hk [w1 [_ ->]]]];
      cbn [from_option].
    - cbn. split; [lia | intros H; contradiction].
    - unfold Datatypes.id. rewrite seed_entry_length. cbn. split; [lia | reflexivity]. }
  split.
  - intros w k. apply Hinit.
  - intros w. apply Forall_forall. intros x Hx.
    apply Hinit. apply list_elem_of_fmap_2. exact Hx.
Qed.

Lemma selectedHistoricalData_held (s : State) (k : string)
      (history : list WaterQualityData) :
  historicalData s !! k = Some history -> selectedHistoricalData s k = history.
Proof. intros H. unfold selectedHistoricalData. now rewrite H. Qed.

Lemma run_bounded (n : nat) (w : World) (k : string) :
  (length (selectedHistoricalData (fst (run n w)) k) <= 20)%nat.
Proof.
  unfold run, bind. destruct (initialize initial w) as [s w'] eqn:E.
  apply ticks_bounded. replace s with (fst (initialize initial w)) by now rewrite E.
  pose proof (proj1 history_bounded_after_initialize w k). lia.
Qed.

(** C2.  The history of every site holds at most 20 entries at all times:
    the component starts with no history at all, initialization leaves
    exactly 10 entries per site, and after initialization and any number
    of ticks every history held, and so the history of every site, has
    at most 20 entries. *)
Theorem history_length_bounded :
  historicalData initial = ∅ /\
  (forall w : World,
      Forall (fun waterBody =>
                length (selectedHistoricalData (fst (initialize initial w))
                          (id waterBody)) = 10%nat)
             waterBodies) /\
  (forall (n : nat) (w : World),
      map_Forall (fun _ history => (length history <= 20)%nat)
                 (historicalData (fst (run n w))) /\
      Forall (fun waterBody =>
                (length (selectedHistoricalData (fst (run n w)) (id waterBody))
                 <= 20)%nat)
             waterBodies).
Proof.
  split; [reflexivity | split].
  - exact (proj2 history_bounded_after_initialize).
  - intros n w. split.
    + intros k history Hk.
      rewrite <- (selectedHistoricalData_held _ _ _ Hk). apply run_bounded.
    + apply Forall_forall. intros x _. apply run_bounded.
Qed.

Lemma selected_after_tick (s : State) (w : World) (waterBody : WaterBody) :
  waterBody ∈ waterBodies ->
  exists w1,
    selectedHistoricalData (fst (tick s w)) (id waterBody)
    = slice (-20) (selectedHistoricalData s (id waterBody)
                     ++ [fst (generateWaterBodyData (id waterBody) w1)]).
Proof.
  intros Hin. unfold selectedHistoricalData. rewrite tick_historicalData.
  destruct (tick_history_lookup (historicalData s)
              (snd (tick_current (currentData s) w)) (id waterBody))
    as [[Hk _] | [_ [w1 ->]]].
  - exfalso. apply Hk. now apply list_elem_of_fmap_2.
  - exists w1. reflexivity.
Qed.

(** The exact length: a tick adds one entry until 20 are held. *)
Lemma tick_length (s : State) (w : World) (waterBody : WaterBody) :
  waterBody ∈ waterBodies ->
  length (selectedHistoricalData (fst (tick s w)) (id waterBody))
  = Nat.min (length (selectedHistoricalData s (id waterBody)) + 1) 20.
Proof.
  intros Hin. destruct (selected_after_tick s w waterBody Hin) as [w1 ->].
  rewrite slice_last, length_drop, length_app. cbn. lia.
Qed.

Lemma ticks_length (n : nat) (s : State) (w : World) (waterBody : WaterBody) :
  waterBody ∈ waterBodies ->
  (length (selectedHistoricalData s (id waterBody)) <= 20)%nat ->
  length (selectedHistoricalData (fst (ticks n s w)) (id waterBody))
  = Nat.min (length (selectedHistoricalData s (id waterBody)) + n) 20.
Proof.
  intros Hin. revert s w. induction n as [|n IH]; intros s w Hs; cbn [ticks].
  - unfold ret. cbn [fst]. lia.
  - unfold bind. destruct (tick s w) as [s' w'] eqn:E.
    replace s' with (fst (tick s w)) by now rewrite E.
    rewrite IH by (rewrite tick_length by exact Hin; lia).
    rewrite tick_length by exact Hin. lia.
Qed.

(** After initialization and [n] ticks every site holds [min (10 + n) 20]
    readings. *)
Lemma run_length (n : nat) (w : World) :
  Forall (fun waterBody =>
            length (selectedHistoricalData (fst (run n w)) (id waterBody))
            = Nat.min (10 + n) 20)
         waterBodies.
Proof.
  apply Forall_forall. intros x Hx.
  destruct history_bounded_after_initialize as [_ Hinit].
  pose proof (proj1 (Forall_forall _ _) (Hinit w) x Hx) as H10. cbn beta in H10.
  unfold run, bind. destruct (initialize initial w) as [s w'].
  cbn [fst] in H10.
  rewrite ticks_length by (exact Hx || (rewrite H10; lia)). now rewrite H10.
Qed.

(** What the specification's append promises of a history [updated]
    obtained from [previous] and [reading]. *)
Lemma append_properties {A : Type} (previous : list A) (reading : A) :
  let updated := slice (-20) (previous ++ [reading]) in
  updated = Spec.append previous reading /\
  previous ++ [reading]
    = take (length previous + 1 - 20) (previous ++ [reading]) ++ updated /\
  ((length previous < 20)%nat -> updated = previous ++ [reading]).
Proof.
  cbn zeta. split; [apply slice_last_keep_last | split].
  - rewrite (slice_last_suffix (previous ++ [reading])) at 1.
    rewrite length_app. reflexivity.
  - intros H. apply slice_last_short. rewrite length_app. cbn. lia.
Qed.

(** C4.  In one tick the history of a site becomes the previous history
    with the new reading appended at the tail and then cut to its last 20
    entries: what is dropped is a prefix, so the entries kept stay in
    order, oldest first, and nothing is dropped while the previous length
    is below 20.  The single-site dashboard updates its one history the
    same way. *)
Theorem tick_appends_then_truncates :
  (forall (s : State) (w : World) (waterBody : WaterBody),
      waterBody ∈ waterBodies ->
      let previous := selectedHistoricalData s (id waterBody) in
      let updated := selectedHistoricalData (fst (tick s w)) (id waterBody) in
      exists newData : WaterQualityData,
        (exists w1, newData = fst (generateWaterBodyData (id waterBody) w1)) /\
        updated = Spec.append previous newData /\
        previous ++ [newData]
          = take (length previous + 1 - 20) (previous ++ [newData]) ++ updated /\
        ((length previous < 20)%nat -> updated = previous ++ [newData])) /\
  (forall (s : SingleSiteDashboard.State) (w : World),
      let previous := SingleSiteDashboard.historicalData s in
      let after := fst (SingleSiteDashboard.tick s w) in
      let newData := SingleSiteDashboard.currentData after in
      let updated := SingleSiteDashboard.historicalData after in
      updated = Spec.append previous newData /\
      previous ++ [newData]
        = take (length previous + 1 - 20) (previous ++ [newData]) ++ updated /\
      ((length previous < 20)%nat -> updated = previous ++ [newData])).
Proof.
  split.
  - intros s w waterBody Hin previous updated.
    destruct (selected_after_tick s w waterBody Hin) as [w1 Hw1].
    exists (fst (generateWaterBodyData (id waterBody) w1)).
    split; [now exists w1 |]. subst updated. rewrite Hw1.
    apply append_properties.
  - intros s w. cbn zeta. unfold SingleSiteDashboard.tick, bind, ret.
    destruct (SingleSiteDashboard.sample Date_now w) as [d w'].
    cbn [fst SingleSiteDashboard.currentData SingleSiteDashboard.historicalData].
    apply append_properties.
Qed.

Lemma tick_appends_then_truncates_witness :
  let waterBody := {| id := "musi-river"; name := "Musi River";
                      location := "Old City"; type := river |} in
  let w := still_world 0.25 100000 in
  let previous := selectedHistoricalData initial (id waterBody) in
  let updated := selectedHistoricalData (fst (tick initial w)) (id waterBody) in
  exists newData : WaterQualityData,
    (exists w1, newData = fst (generateWaterBodyData (id waterBody) w1)) /\
    updated = Spec.append previous newData /\
    previous ++ [newData]
      = take (length previous + 1 - 20) (previous ++ [newData]) ++ updated /\
    ((length previous < 20)%nat -> updated = previous ++ [newData]).
Proof.
  intros waterBody w.
  apply (proj1 tick_appends_then_truncates initial w waterBody).
  unfold waterBody, waterBodies. apply list_elem_of_further, list_elem_of_here.
Defined.

End HistoryBuffer.

(* ================================================================== *)
(** * Arithmetic away from NaN and from overflow                       *)
(* ================================================================== *)

Section Arithmetic.

Local Open Scope number_scope.

Lemma overflow_threshold_large : (1000 < overflow_threshold)%Q.
Proof. vm_compute. reflexivity. Qed.

Lemma fin_small (q : Q) : (Qabs q <= 1000)%Q -> fin q = Fin q.
Proof.
  intros H. unfold fin.
  destruct (Qle_bool overflow_threshold (Qabs q)) eqn:E; [|reflexivity].
  apply Qle_bool_iff in E. pose proof overflow_threshold_large. lra.
Qed.

Lemma fin_not_NaN (q : Q) : fin q <> NaN.
Proof. unfold fin. destruct (Qle_bool _ _); discriminate. Qed.

Lemma add_Fin_not_NaN (x : Q) (b : number) : b <> NaN -> Fin x + b <> NaN.
Proof. destruct b; cbn; [congruence | discriminate | intros _; apply fin_not_NaN]. Qed.

Lemma sub_Fin_Fin_not_NaN (x y : Q) : Fin x - Fin y <> NaN.
Proof. cbn. apply fin_not_NaN. Qed.

Lemma mul_Fin_not_NaN (a : number) (y : Q) :
  a <> NaN -> Qeq_bool y 0 = false -> a * Fin y <> NaN.
Proof.
  destruct a; cbn; [congruence | | intros _ _; apply fin_not_NaN].
  intros _ ->. discriminate.
Qed.

Lemma ltb_leb (a b : number) : (a <? b) = true -> (a <=? b) = true.
Proof.
  destruct a as [|s|x], b as [|t|y]; cbn; try congruence.
  - destruct s, t; cbn; congruence.
  - intros H. apply Qlt_bool_iff in H. apply Qle_bool_iff. lra.
Qed.

(** [Math.max(c, x)] is at least [c] unless [x] is NaN. *)
Lemma Math_max_floor (c : Q) (x : number) :
  x <> NaN -> Math_max (Fin c) x >= Fin c.
Proof.
  intros Hx. unfold ge, geb.
  destruct x as [|t|y]; [congruence | |]; cbn [Math_max].
  - destruct (Fin c <? Infinity t) eqn:E; [now apply ltb_leb |].
    cbn. apply Qle_bool_iff. lra.
  - destruct (Fin c <? Fin y) eqn:E; [now apply ltb_leb |].
    cbn. apply Qle_bool_iff. lra.
Qed.

(** The noise term [(Math.random() - 0.5) * scale] for a draw in [0, 1). *)
Lemma noise_term (r scale : Q) :
  (0 <= r < 1)%Q -> (0 <= scale <= 10)%Q ->
  (Fin r - Fin 0.5) * Fin scale = Fin ((r + - 0.5) * scale) /\
  (Qabs ((r + - 0.5) * scale) <= scale * 0.5)%Q.
Proof.
  intros Hr Hs. unfold sub, neg, add.
  rewrite fin_small by (apply Qabs_case; intros; lra).
  unfold mul.
  assert (Hn : (- (scale * 0.5) <= (r + - 0.5) * scale <= scale * 0.5)%Q) by nra.
  split.
  - apply fin_small. apply Qabs_case; intros; lra.
  - apply Qabs_case; intros; lra.
Qed.

End Arithmetic.

(* ================================================================== *)
(** * The baseline registry                                            *)
(* ================================================================== *)

Section BaselineRegistry.

Import Dashboard.

Lemma baselines_default :
  baselines !! "hussain-sagar"%string
  = Some {| Baseline.pH := Fin 7.8; Baseline.turbidity := Fin 2.5;
            Baseline.temperature := Fin 24; Baseline.dissolvedOxygen := Fin 6.5 |}.
Proof. vm_compute. reflexivity. Qed.

(** [getWaterBodyBaseline] by cases: an own entry, else an inherited
    property of the object literal, else the entry of 'hussain-sagar'. *)
Lemma getWaterBodyBaseline_cases (k : string) :
  getWaterBodyBaseline k =
  match baselines !! k with
  | Some b => Own b
  | None =>
      if bool_decide (k ∈ Object_prototype_names) then Inherited k
      else Own {| Baseline.pH := Fin 7.8; Baseline.turbidity := Fin 2.5;
                  Baseline.temperature := Fin 24;
                  Baseline.dissolvedOxygen := Fin 6.5 |}
  end.
Proof.
  unfold getWaterBodyBaseline, get. rewrite baselines_default.
  destruct (baselines !! k); [reflexivity |].
  destruct (bool_decide _); reflexivity.
Qed.

(** The lookup never yields [undefined]: no property read on its result
    throws. *)
Lemma getWaterBodyBaseline_defined (k : string) :
  getWaterBodyBaseline k <> Undefined.
Proof.
  rewrite getWaterBodyBaseline_cases.
  destruct (baselines !! k); [discriminate |].
  destruct (bool_decide _); discriminate.
Qed.

(** Each of the six sites gets its own baseline. *)
Lemma getWaterBodyBaseline_sites :
  Forall (fun waterBody =>
            exists b, baselines !! id waterBody = Some b /\
                      getWaterBodyBaseline (id waterBody) = Own b)
         waterBodies /\
  getWaterBodyBaseline "musi-river"
  = Own {| Baseline.pH := Fin 6.8; Baseline.turbidity := Fin 4.0;
           Baseline.temperature := Fin 26; Baseline.dissolvedOxygen := Fin 5.5 |} /\
  getWaterBodyBaseline "groundwater-1"
  = Own {| Baseline.pH := Fin 6.9; Baseline.turbidity := Fin 0.5;
           Baseline.temperature := Fin 25; Baseline.dissolvedOxygen := Fin 7.8 |}.
Proof.
  split; [|split; vm_compute; reflexivity].
  unfold waterBodies.
  repeat (apply Forall_cons; split;
          [eexists; split; vm_compute; reflexivity |]).
  apply Forall_nil_2.
Qed.


(** An id that is neither a site nor a name inherited from
    [Object.prototype] falls back to the baseline of 'hussain-sagar'. *)
Lemma getWaterBodyBaseline_fallback (k : string) :
  baselines !! k = None -> k ∉ Object_prototype_names ->
  getWaterBodyBaseline k = getWaterBodyBaseline "hussain-sagar".
Proof.
  intros Hk Hp. rewrite !getWaterBodyBaseline_cases, Hk, baselines_default.
  now rewrite bool_decide_eq_false_2.
Qed.

(** The keys of the baseline table are the site ids. *)
Lemma baselines_keys (k : string) :
  baselines !! k = None <-> k ∉ map id waterBodies.
Proof.
  unfold baselines. rewrite <- not_elem_of_list_to_map. reflexivity.
Qed.



(** Outside the ids of C6 lie the names inherited from
    [Object.prototype], which the component never passes.  On
    'constructor' the object literal finds the inherited property, so the
    fallback is not taken, and a reading generated from it would have NaN
    for pH and turbidity. *)
Lemma getWaterBodyBaseline_inherited_name :
  baselines !! "constructor"%string = None /\
  getWaterBodyBaseline "constructor" = Inherited "constructor" /\
  getWaterBodyBaseline "constructor" <> getWaterBodyBaseline "hussain-sagar" /\
  pH (fst (generateWaterBodyData "constructor" (still_world 0.25 100000))) = NaN /\
  turbidity (fst (generateWaterBodyData "constructor" (still_world 0.25 100000))) = NaN.
Proof.
  repeat split; try (vm_compute; reflexivity).
  vm_compute. discriminate.
Qed.

(** A baseline the lookup returns is an entry of the table: its four
    fields are finite and small. *)
Lemma baseline_fields (k : string) (B : Baseline.t) :
  getWaterBodyBaseline k = Own B ->
  exists p t c o : Q,
    B = {| Baseline.pH := Fin p; Baseline.turbidity := Fin t;
           Baseline.temperature := Fin c; Baseline.dissolvedOxygen := Fin o |} /\
    (0 <= p <= 100 /\ 0 <= t <= 100 /\ 0 <= c <= 100 /\ 0 <= o <= 100)%Q.
Proof.
  rewrite getWaterBodyBaseline_cases.
  assert (Htable : forall k b, baselines !! k = Some b ->
            exists p t c o : Q,
              b = {| Baseline.pH := Fin p; Baseline.turbidity := Fin t;
                     Baseline.temperature := Fin c;
                     Baseline.dissolvedOxygen := Fin o |} /\
              (0 <= p <= 100 /\ 0 <= t <= 100 /\ 0 <= c <= 100 /\ 0 <= o <= 100)%Q).
  { intros k' b Hb. unfold baselines in Hb.
    apply elem_of_list_to_map_2 in Hb.
    repeat (apply elem_of_cons in Hb as [Hb | Hb];
            [injection Hb as _ ->; do 4 eexists; split; [reflexivity | lra] |]).
    now apply elem_of_nil in Hb. }
  destruct (baselines !! k) as [b|] eqn:E.
  - intros [= <-]. exact (Htable k b E).
  - destruct (bool_decide _); [discriminate |].
    intros [= <-]. exact (Htable _ _ baselines_default).
Qed.

End BaselineRegistry.

(* ================================================================== *)
(** * The sample generator                                             *)
(* ================================================================== *)

Section SampleGenerator.

Import Dashboard.
Local Open Scope number_scope.

(** The reading [generateWaterBodyData] builds: four draws, in source
    order, and one reading of the clock. *)
Lemma generateWaterBodyData_reading (k : string) (w : World) :
  let r := fun i => Fin (random_draws w (random_next w + i)) in
  let baseline := getWaterBodyBaseline k in
  fst (generateWaterBodyData k w) =
  {| pH := num_prop Baseline.pH baseline + (r 0%nat - Fin 0.5) * Fin 1.0;
     turbidity :=
       Math_max (Fin 0.1)
         (num_prop Baseline.turbidity baseline + (r 1%nat - Fin 0.5) * Fin 1.5);
     temperature :=
       num_prop Baseline.temperature baseline + (r 2%nat - Fin 0.5) * Fin 3.0;
     dissolvedOxygen :=
       Math_max (Fin 3)
         (num_prop Baseline.dissolvedOxygen baseline + (r 3%nat - Fin 0.5) * Fin 2.0);
     timestamp := clock_reads w (clock_next w) |}.
Proof.
  cbn zeta. unfold generateWaterBodyData, bind, Math_random, Date_now, ret.
  cbn [fst random_draws random_next clock_reads clock_next].
  rewrite Nat.add_0_r, !Nat.add_succ_r, Nat.add_0_r. reflexivity.
Qed.

(** C5.  Whatever the site baseline and whatever the four draws, the
    generated reading has turbidity at least 0.1 and dissolved oxygen at
    least 3.0. *)
Theorem generated_floors (k : string) (B : Baseline.t) (w : World) :
  getWaterBodyBaseline k = Own B ->
  let d := fst (generateWaterBodyData k w) in
  turbidity d >= Fin 0.1 /\ dissolvedOxygen d >= Fin 3.0.
Proof.
  intros HB d. subst d. rewrite generateWaterBodyData_reading. cbn zeta.
  destruct (baseline_fields k B HB) as (p & t & c & o & -> & _).
  rewrite HB. cbn [turbidity dissolvedOxygen num_prop
                   Baseline.turbidity Baseline.dissolvedOxygen].
  split.
  - apply Math_max_floor, add_Fin_not_NaN, mul_Fin_not_NaN;
      [apply sub_Fin_Fin_not_NaN | reflexivity].
  - assert (H : Math_max (Fin 3)
                  (Fin o + (Fin (random_draws w (random_next w + 3)) - Fin 0.5)
                           * Fin 2.0) >= Fin 3).
    { apply Math_max_floor, add_Fin_not_NaN, mul_Fin_not_NaN;
        [apply sub_Fin_Fin_not_NaN | reflexivity]. }
    unfold ge, geb, leb in *.
    destruct (Math_max _ _); [assumption | assumption |].
    apply Qle_bool_iff in H. apply Qle_bool_iff. lra.
Qed.

Lemma generated_floors_witness :
  let d := fst (generateWaterBodyData "musi-river" (still_world 0.25 100000)) in
  turbidity d >= Fin 0.1 /\ dissolvedOxygen d >= Fin 3.0.
Proof.
  apply (generated_floors "musi-river"
           {| Baseline.pH := Fin 6.8; Baseline.turbidity := Fin 4.0;
              Baseline.temperature := Fin 26; Baseline.dissolvedOxygen := Fin 5.5 |}
           (still_world 0.25 100000)).
  vm_compute. reflexivity.
Defined.

(** A finite baseline field plus a bounded noise term is finite and
    within the amplitude of the field. *)
Lemma perturbed_within (b n eps : Q) :
  (0 <= b <= 100)%Q -> (Qabs n <= eps)%Q -> (eps <= 10)%Q ->
  Fin b + Fin n = Fin (b + n) /\ within (Fin b + Fin n) (Fin b) eps.
Proof.
  intros Hb Hn He.
  assert (Hn' : (- eps <= n <= eps)%Q).
  { revert Hn. apply Qabs_case; intros; lra. }
  assert (E : Fin b + Fin n = Fin (b + n)).
  { cbn. apply fin_small. apply Qabs_case; intros; lra. }
  split; [exact E |]. rewrite E. unfold within. apply Qabs_case; intros; lra.
Qed.

(** C7.  Generation never fails: the lookup never yields [undefined].
    For a site baseline [B] and draws in [0, 1), each field of the
    generated reading is the baseline field plus a noise term made from
    the field's own draw, [(draw - 0.5) * scale] with scale 1.0, 1.5, 3.0
    and 2.0, the four draws being the next four of [Math.random()] in
    source order; so the noise has amplitude 0.5 for pH, 0.75 for
    turbidity, 1.5 for temperature and 1.0 for dissolved oxygen, the
    floors 0.1 and 3 being applied to turbidity and dissolved oxygen
    afterwards, and pH stays within 0.5 and temperature within 1.5 of the
    baseline. *)
Theorem generated_within_amplitude :
  (forall k : string, getWaterBodyBaseline k <> Undefined) /\
  (forall (k : string) (B : Baseline.t) (w : World),
      getWaterBodyBaseline k = Own B -> random_in_range w ->
      let d := fst (generateWaterBodyData k w) in
      let draw := fun i : nat => random_draws w (random_next w + i) in
      let n_pH := ((draw 0%nat - 0.5) * 1.0)%Q in
      let n_turbidity := ((draw 1%nat - 0.5) * 1.5)%Q in
      let n_temperature := ((draw 2%nat - 0.5) * 3.0)%Q in
      let n_oxygen := ((draw 3%nat - 0.5) * 2.0)%Q in
      ((Fin (draw 0%nat) - Fin 0.5) * Fin 1.0 = Fin n_pH /\
       (Fin (draw 1%nat) - Fin 0.5) * Fin 1.5 = Fin n_turbidity /\
       (Fin (draw 2%nat) - Fin 0.5) * Fin 3.0 = Fin n_temperature /\
       (Fin (draw 3%nat) - Fin 0.5) * Fin 2.0 = Fin n_oxygen) /\
      (Qabs n_pH <= 0.5 /\ Qabs n_turbidity <= 0.75 /\
       Qabs n_temperature <= 1.5 /\ Qabs n_oxygen <= 1.0)%Q /\
      pH d = Baseline.pH B + Fin n_pH /\
      turbidity d = Math_max (Fin 0.1) (Baseline.turbidity B + Fin n_turbidity) /\
      temperature d = Baseline.temperature B + Fin n_temperature /\
      dissolvedOxygen d
        = Math_max (Fin 3) (Baseline.dissolvedOxygen B + Fin n_oxygen) /\
      within (pH d) (Baseline.pH B) 0.5 /\
      within (temperature d) (Baseline.temperature B) 1.5 /\
      within (Baseline.turbidity B + Fin n_turbidity) (Baseline.turbidity B) 0.75 /\
      within (Baseline.dissolvedOxygen B + Fin n_oxygen)
             (Baseline.dissolvedOxygen B) 1.0).
Proof.
  split; [exact getWaterBodyBaseline_defined |].
  intros k B w HB Hw d draw n_pH n_turbidity n_temperature n_oxygen.
  subst d. rewrite generateWaterBodyData_reading. cbn zeta.
  destruct (baseline_fields k B HB) as (p & t & c & o & -> & Hp & Ht & Hc & Ho).
  rewrite HB.
  cbn [pH turbidity temperature dissolvedOxygen num_prop Baseline.pH
       Baseline.turbidity Baseline.temperature Baseline.dissolvedOxygen].
  destruct (noise_term (draw 0%nat) 1.0 (Hw _) ltac:(lra)) as [E0 H0].
  destruct (noise_term (draw 1%nat) 1.5 (Hw _) ltac:(lra)) as [E1 H1].
  destruct (noise_term (draw 2%nat) 3.0 (Hw _) ltac:(lra)) as [E2 H2].
  destruct (noise_term (draw 3%nat) 2.0 (Hw _) ltac:(lra)) as [E3 H3].
  change ((draw 0%nat + - 0.5) * 1.0)%Q with n_pH in *.
  change ((draw 1%nat + - 0.5) * 1.5)%Q with n_turbidity in *.
  change ((draw 2%nat + - 0.5) * 3.0)%Q with n_temperature in *.
  change ((draw 3%nat + - 0.5) * 2.0)%Q with n_oxygen in *.
  fold (draw 0%nat) (draw 1%nat) (draw 2%nat) (draw 3%nat).
  rewrite E0, E1, E2, E3.
  split; [repeat split; reflexivity |].
  split; [|split; [reflexivity | split; [reflexivity | split;
           [reflexivity | split; [reflexivity |]]]]].
  - repeat split;
      [ eapply Qle_trans; [exact H0 | lra] | eapply Qle_trans; [exact H1 | lra]
      | eapply Qle_trans; [exact H2 | lra] | eapply Qle_trans; [exact H3 | lra] ].
  - repeat split.
    + apply perturbed_within; [exact Hp | | lra]. eapply Qle_trans; [exact H0 | lra].
    + apply perturbed_within; [exact Hc | | lra]. eapply Qle_trans; [exact H2 | lra].
    + apply perturbed_within; [exact Ht | | lra]. eapply Qle_trans; [exact H1 | lra].
    + apply perturbed_within; [exact Ho | | lra]. eapply Qle_trans; [exact H3 | lra].
Qed.

Lemma generated_within_amplitude_witness :
  let B := {| Baseline.pH := Fin 7.5; Baseline.turbidity := Fin 1.8;
              Baseline.temperature := Fin 23; Baseline.dissolvedOxygen := Fin 7.2 |} in
  let w := still_world 0.25 100000 in
  let d := fst (generateWaterBodyData "durgam-cheruvu" w) in
  let n_pH := ((0.25 - 0.5) * 1.0)%Q in
  let n_turbidity := ((0.25 - 0.5) * 1.5)%Q in
  let n_temperature := ((0.25 - 0.5) * 3.0)%Q in
  let n_oxygen := ((0.25 - 0.5) * 2.0)%Q in
  ((Fin 0.25 - Fin 0.5) * Fin 1.0 = Fin n_pH /\
   (Fin 0.25 - Fin 0.5) * Fin 1.5 = Fin n_turbidity /\
   (Fin 0.25 - Fin 0.5) * Fin 3.0 = Fin n_temperature /\
   (Fin 0.25 - Fin 0.5) * Fin 2.0 = Fin n_oxygen) /\
  (Qabs n_pH <= 0.5 /\ Qabs n_turbidity <= 0.75 /\
   Qabs n_temperature <= 1.5 /\ Qabs n_oxygen <= 1.0)%Q /\
  pH d = Baseline.pH B + Fin n_pH /\
  turbidity d = Math_max (Fin 0.1) (Baseline.turbidity B + Fin n_turbidity) /\
  temperature d = Baseline.temperature B + Fin n_temperature /\
  dissolvedOxygen d
    = Math_max (Fin 3) (Baseline.dissolvedOxygen B + Fin n_oxygen) /\
  within (pH d) (Baseline.pH B) 0.5 /\
  within (temperature d) (Baseline.temperature B) 1.5 /\
  within (Baseline.turbidity B + Fin n_turbidity) (Baseline.turbidity B) 0.75 /\
  within (Baseline.dissolvedOxygen B + Fin n_oxygen)
         (Baseline.dissolvedOxygen B) 1.0.
Proof.
  intros B w.
  apply (proj2 generated_within_amplitude "durgam-cheruvu" B w).
  - vm_compute. reflexivity.
  - intros n. cbn. lra.
Defined.

End SampleGenerator.

(* ================================================================== *)
(** * Initialization                                                   *)
(* ================================================================== *)

Section Initialization.

Lemma single_seed_entry_clock (now : Z)
    (acc : list SingleSiteDashboard.WaterQualityData) (i : Z) (w : World) :
  clock_at now w ->
  clock_at now (snd (SingleSiteDashboard.seed_entry acc i w)) /\
  map SingleSiteDashboard.timestamp (fst (SingleSiteDashboard.seed_entry acc i w))
  = map SingleSiteDashboard.timestamp acc ++ [now - (10 - i) * 3000].
Proof.
  intros Hw.
  unfold SingleSiteDashboard.seed_entry, SingleSiteDashboard.sample,
    bind, Math_random, Date_now, ret.
  cbn [fst snd random_draws random_next clock_reads clock_next]. split.
  - intros j. cbn. rewrite <- Nat.add_succ_r. apply Hw.
  - rewrite map_app. cbn. specialize (Hw 0%nat). rewrite Nat.add_0_r in Hw.
    now rewrite Hw.
Qed.

Lemma single_seed_loop_clock (now : Z) (idx : list Z)
    (acc : list SingleSiteDashboard.WaterQualityData) (w : World) :
  clock_at now w ->
  clock_at now (snd (foldM SingleSiteDashboard.seed_entry idx acc w)) /\
  map SingleSiteDashboard.timestamp
    (fst (foldM SingleSiteDashboard.seed_entry idx acc w))
  = map SingleSiteDashboard.timestamp acc
      ++ map (fun i => now - (10 - i) * 3000) idx.
Proof.
  revert acc w. induction idx as [|i idx IH]; intros acc w Hw; cbn [foldM].
  - cbn. split; [exact Hw | now rewrite app_nil_r].
  - unfold bind at 1 2.
    destruct (single_seed_entry_clock now acc i w Hw) as [Hw' Ht].
    destruct (SingleSiteDashboard.seed_entry acc i w) as [acc' w'].
    cbn [fst snd] in *.
    destruct (IH acc' w' Hw') as [Hw'' Ht'].
    split; [exact Hw'' |]. rewrite Ht', Ht, <- app_assoc. reflexivity.
Qed.

(** C8, as the code has it.  With the clock standing at [now] while the
    initialization effect runs, every site's history is seeded with
    exactly 10 readings, oldest first, stamped 3 seconds apart from 30
    seconds before [now] to 3 seconds before [now]: the entry of index
    [i] carries [now - (10 - i) * 3000] milliseconds.  The single-site
    dashboard seeds its one history the same way. *)
Theorem initialize_seeds_backdated :
  (forall (now : Z) (w : World),
      clock_at now w ->
      Forall (fun waterBody =>
                map Dashboard.timestamp
                  (Dashboard.selectedHistoricalData
                     (fst (Dashboard.initialize Dashboard.initial w))
                     (Dashboard.id waterBody))
                = [ now - 30000; now - 27000; now - 24000; now - 21000;
                    now - 18000; now - 15000; now - 12000; now - 9000;
                    now - 6000; now - 3000 ])
             Dashboard.waterBodies) /\
  (forall (now : Z) (s : SingleSiteDashboard.State) (w : World),
      clock_at now w ->
      map SingleSiteDashboard.timestamp
        (SingleSiteDashboard.historicalData
           (fst (SingleSiteDashboard.initialize s w)))
      = [ now - 30000; now - 27000; now - 24000; now - 21000;
          now - 18000; now - 15000; now - 12000; now - 9000;
          now - 6000; now - 3000 ]).
Proof.
  split.
  - intros now w Hw. apply Forall_forall. intros x Hx.
    unfold Dashboard.selectedHistoricalData.
    destruct (initialize_lookup (clock_at now)
                (generateWaterBodyData_clock now)
                (fun k w Hw => proj1 (seed_loop_clock now k _ [] w Hw))
                Dashboard.initial w (Dashboard.id x) Hw)
      as [[Hk _] | [_ (w1 & Hw1 & ->)]].
    + exfalso. apply Hk. now apply list_elem_of_fmap_2.
    + cbn [from_option]. unfold Datatypes.id.
      rewrite (proj2 (seed_loop_clock now _ _ [] w1 Hw1)).
      cbn. repeat (f_equal; try lia).
  - intros now s w Hw.
    unfold SingleSiteDashboard.initialize, bind, ret.
    pose proof (proj2 (single_seed_loop_clock now (Dashboard.upto 10) [] w Hw)) as H.
    destruct (foldM SingleSiteDashboard.seed_entry (Dashboard.upto 10) [] w)
      as [h w'].
    cbn [fst SingleSiteDashboard.historicalData] in *. rewrite H.
    cbn. repeat (f_equal; try lia).
Qed.

Lemma initialize_seeds_backdated_witness :
  let w := still_world 0.25 100000 in
  Forall (fun waterBody =>
            map Dashboard.timestamp
              (Dashboard.selectedHistoricalData
                 (fst (Dashboard.initialize Dashboard.initial w))
                 (Dashboard.id waterBody))
            = [ 100000 - 30000; 100000 - 27000; 100000 - 24000; 100000 - 21000;
                100000 - 18000; 100000 - 15000; 100000 - 12000; 100000 - 9000;
                100000 - 6000; 100000 - 3000 ])
         Dashboard.waterBodies /\
  map SingleSiteDashboard.timestamp
    (SingleSiteDashboard.historicalData
       (fst (SingleSiteDashboard.initialize
               (fst (SingleSiteDashboard.initial w)) w)))
  = [ 100000 - 30000; 100000 - 27000; 100000 - 24000; 100000 - 21000;
      100000 - 18000; 100000 - 15000; 100000 - 12000; 100000 - 9000;
      100000 - 6000; 100000 - 3000 ].
Proof.
  intros w. split.
  - apply (proj1 initialize_seeds_backdated 100000 w). intros n. reflexivity.
  - apply (proj2 initialize_seeds_backdated 100000). intros n. reflexivity.
Defined.

(** C8, as the claim states it, fails: with the clock standing at
    100000 ms the last seeded entry of 'hussain-sagar' is stamped
    97000 ms, 3 seconds before the initialization instant, not at it. *)
Lemma seeded_history_ends_before_now :
  let now := 100000 in
  let w := still_world 0.25 now in
  let seeded :=
    map Dashboard.timestamp
      (Dashboard.selectedHistoricalData
         (fst (Dashboard.initialize Dashboard.initial w)) "hussain-sagar") in
  clock_at now w /\
  seeded = [70000; 73000; 76000; 79000; 82000; 85000; 88000; 91000; 94000; 97000] /\
  last seeded = Some 97000 /\
  last seeded <> Some now.
Proof.
  cbn zeta. split; [intros n; reflexivity |].
  split; [vm_compute; reflexivity |].
  split; [vm_compute; reflexivity |].
  vm_compute. discriminate.
Qed.

End Initialization.

(* ================================================================== *)
(** * The manual-entry form                                            *)
(* ================================================================== *)

Section ManualEntry.

Import ManualWaterQualityInput.

Lemma truthy_nonempty (text : string) : truthy text = true <-> text <> ""%string.
Proof. destruct text; cbn; split; congruence. Qed.

Lemma truthy_and_then (a b : string) :
  truthy (and_then a b) = truthy a && truthy b.
Proof. unfold and_then. destruct (truthy a) eqn:E; [reflexivity | exact E]. Qed.

(** The condition of the submit button, field by field. *)
Lemma submit_disabled_fields (fd : FormData.t) :
  submit_disabled fd
  = negb (truthy (FormData.pH fd) && truthy (FormData.turbidity fd)
          && truthy (FormData.temperature fd)
          && truthy (FormData.dissolvedOxygen fd)).
Proof.
  unfold submit_disabled, isFormValid. now rewrite !truthy_and_then.
Qed.

Lemma digit_not_special (c : ascii) (d : Z) :
  digit_value c = Some d ->
  is_white_space c = false /\ Ascii.eqb c "-" = false /\
  Ascii.eqb c "+" = false /\ Ascii.eqb c "I" = false.
Proof.
  unfold digit_value, is_white_space. intros H.
  destruct ((48 <=? nat_of_ascii c)%nat && (nat_of_ascii c <=? 57)%nat) eqn:E;
    [|discriminate].
  apply andb_true_iff in E as [E1 E2].
  apply Nat.leb_le in E1, E2.
  repeat split.
  - apply orb_false_iff. split.
    + apply andb_false_iff. right. apply Nat.leb_gt. lia.
    + apply Nat.eqb_neq. lia.
  - apply Ascii.eqb_neq. intros ->. vm_compute in E1. lia.
  - apply Ascii.eqb_neq. intros ->. vm_compute in E1. lia.
  - apply Ascii.eqb_neq. intros ->. vm_compute in E2. lia.
Qed.

Lemma take_digits_head (s : string) (d : Z) (ds : list Z) (rest : string) :
  take_digits s = (d :: ds, rest) ->
  exists c r, s = String c r /\ digit_value c = Some d.
Proof.
  destruct s as [|c r]; cbn; [discriminate |].
  destruct (digit_value c) as [d'|] eqn:E; [|discriminate].
  destruct (take_digits r) as [ds' rest']. intros [= <- _ _].
  now exists c, r.
Qed.

Lemma take_digits_none (s : string) (rest : string) :
  take_digits s = ([], rest) -> rest = s.
Proof.
  destruct s as [|c r]; cbn; [now intros [= <-] |].
  destruct (digit_value c) as [d'|] eqn:E.
  - destruct (take_digits r) as [ds' rest']. discriminate.
  - now intros [= <-].
Qed.

Lemma parseFloat_from_digits (input s : string) (negative : bool)
    (int_part frac_part : list Z) (s1 s2 : string) :
  take_sign (trim_start input) = (negative, s) ->
  String.prefix "Infinity" s = false ->
  take_digits s = (int_part, s1) ->
  take_fraction s1 = (frac_part, s2) ->
  (int_part ++ frac_part)%list <> [] ->
  parseFloat input <> NaN.
Proof.
  intros Hs Hp Hi Hf Hne. unfold parseFloat. rewrite Hs, Hp, Hi, Hf.
  destruct (int_part ++ frac_part)%list; [congruence | apply fin_not_NaN].
Qed.

Lemma start_of_numeral (c : ascii) (r : string) :
  (exists d, digit_value c = Some d) \/ c = "."%char ->
  take_sign (trim_start (String c r)) = (false, String c r) /\
  String.prefix "Infinity" (String c r) = false.
Proof.
  intros [[d Hd] | ->].
  - destruct (digit_not_special c d Hd) as (Hw & Hm & Hpl & HI).
    cbn [trim_start]. rewrite Hw. unfold take_sign. rewrite Hm, Hpl.
    split; [reflexivity |]. cbn [String.prefix].
    destruct (ascii_dec "I" c) as [<- | _]; [discriminate | reflexivity].
  - split; reflexivity.
Qed.

(** What [parseFloat] reads from text that starts, after an optional
    minus, with a digit or with a point and a digit. *)
Lemma parseFloat_numeral (s0 : string) (negative : bool) :
  (exists d ds rest, take_digits s0 = (d :: ds, rest)) \/
  (exists r d ds rest, s0 = String "." r /\ take_digits r = (d :: ds, rest)) ->
  parseFloat (if negative then String "-" s0 else s0) <> NaN.
Proof.
  intros H.
  assert (Hstart : exists c r, s0 = String c r /\
                     ((exists d, digit_value c = Some d) \/ c = "."%char)).
  { destruct H as [(d & ds & rest & Hd) | (r & d & ds & rest & -> & Hd)].
    - destruct (take_digits_head _ _ _ _ Hd) as (c & r & -> & Hc).
      exists c, r. split; [reflexivity | left; now exists d].
    - exists "."%char, r. split; [reflexivity | now right]. }
  destruct Hstart as (c & r & Hs0 & Hc).
  destruct (start_of_numeral c r Hc) as [Hsign Hprefix]. rewrite <- Hs0 in *.
  assert (Hsign' : take_sign (trim_start (if negative then String "-" s0 else s0))
                   = (negative, s0)).
  { destruct negative; [reflexivity | exact Hsign]. }
  destruct H as [(d & ds & rest & Hd) | (r' & d & ds & rest & Hr & Hd)].
  - destruct (take_fraction rest) as [fp s2] eqn:Hf.
    eapply parseFloat_from_digits; eauto; discriminate.
  - eapply (parseFloat_from_digits _ s0 negative [] (d :: ds) s0 rest);
      [exact Hsign' | exact Hprefix | rewrite Hr; reflexivity
      | rewrite Hr; cbn; exact Hd | discriminate].
Qed.

(** Text a number input lets through reads as a number. *)
Lemma valid_number_parses (s : string) :
  valid_floating_point_number s = true ->
  truthy s = true /\ parseFloat s <> NaN.
Proof.
  intros H. split.
  - destruct s; [discriminate | reflexivity].
  - unfold valid_floating_point_number in H.
    set (negative := match s with
                     | String c _ => Ascii.eqb c "-"
                     | EmptyString => false
                     end).
    set (s0 := match s with
               | String c r => if Ascii.eqb c "-" then r else s
               | EmptyString => s
               end) in *.
    assert (Hs : s = if negative then String "-" s0 else s0).
    { subst negative s0. destruct s as [|c r]; [reflexivity |].
      destruct (Ascii.eqb_spec c "-") as [-> | _]; reflexivity. }
    rewrite Hs. apply parseFloat_numeral. clearbody s0. clear Hs negative.
    destruct (take_digits s0) as [int_part s1] eqn:Hi.
    destruct int_part as [|d ds].
    + apply take_digits_none in Hi. subst s1. right.
      destruct s0 as [|c r]; [discriminate |].
      destruct (Ascii.eqb_spec c ".") as [-> | _]; [|discriminate].
      destruct (take_digits r) as [[|d ds] s2] eqn:Hr; [discriminate |].
      now exists r, d, ds, s2.
    + left. now exists d, ds, s1.
Qed.

Lemma number_input_value_idempotent (typed : string) :
  number_input_value (number_input_value typed) = number_input_value typed.
Proof.
  unfold number_input_value.
  destruct (valid_floating_point_number typed) eqn:E; [now rewrite E | reflexivity].
Qed.

(** The fields of the form are fed by number inputs only: what they
    hold, from the initial state on, is what number inputs deliver. *)
Lemma onChange_from_number_inputs (field typed : string) (s : State) :
  from_number_inputs (formData initial) /\
  (from_number_inputs (formData s) ->
   from_number_inputs (formData (onChange field typed s))).
Proof.
  split; [repeat split |].
  intros (H1 & H2 & H3 & H4). unfold onChange, handleInputChange.
  cbn [formData].
  repeat (destruct (String.eqb field _));
    repeat split; cbn; try assumption; apply number_input_value_idempotent.
Qed.

(** For a field fed by a number input, being non-empty is being a
    non-empty parseable number. *)
Lemma sanitized_truthy_parseable (text : string) :
  number_input_value text = text -> truthy text = Spec.parseable_number text.
Proof.
  unfold number_input_value, Spec.parseable_number. intros H.
  destruct (valid_floating_point_number text) eqn:E.
  - destruct (valid_number_parses text E) as [-> Hp].
    destruct (parseFloat text); [congruence | reflexivity | reflexivity].
  - now rewrite <- H.
Qed.

(** The fields the form can hold: from the initial state on, every change
    comes from a number input. *)
Lemma changes_from_number_inputs (events : list (string * string)) (s : State) :
  from_number_inputs (formData s) ->
  from_number_inputs (formData (changes events s)).
Proof.
  unfold changes. revert s.
  induction events as [|[field typed] events IH]; intros s Hs; cbn [fold_left].
  - exact Hs.
  - apply IH. now apply onChange_from_number_inputs.
Qed.

Lemma reachable_from_number_inputs (events : list (string * string)) :
  from_number_inputs (formData (changes events initial)).
Proof.
  apply changes_from_number_inputs. exact (proj1 (onChange_from_number_inputs "" "" initial)).
Qed.

Lemma submit_disabled_parseable (fd : FormData.t) :
  from_number_inputs fd -> submit_disabled fd = negb (Spec.submit_enabled fd).
Proof.
  intros (H1 & H2 & H3 & H4). rewrite submit_disabled_fields.
  unfold Spec.submit_enabled.
  now rewrite <- !sanitized_truthy_parseable by assumption.
Qed.

(** Text that is not a valid floating-point number, typed into one of the
    four inputs, leaves its field empty. *)
Lemma onChange_non_numeric (field typed : string) (s : State) :
  field ∈ ["pH"; "turbidity"; "temperature"; "dissolvedOxygen"]%string ->
  valid_floating_point_number typed = false ->
  submit_disabled (formData (onChange field typed s)) = true.
Proof.
  intros Hf Hv. rewrite submit_disabled_fields.
  unfold onChange, number_input_value. rewrite Hv. cbn [formData].
  repeat (apply elem_of_cons in Hf as [-> | Hf];
          [cbn; rewrite ?andb_false_r; reflexivity |]).
  now apply elem_of_nil in Hf.
Qed.

(** C3.  In every state the form can hold (the initial state followed by
    any sequence of change events of its four number inputs), the submit
    action is enabled if and only if all four fields are non-empty
    parseable numbers: it is disabled exactly when some field is empty or
    does not read as a number.  Text that is not a number, typed into any
    of the four inputs, leaves the field empty and the action disabled. *)
Theorem submit_enabled_iff_parseable (events : list (string * string)) :
  let fd := formData (changes events initial) in
  (submit_disabled fd = false <-> Spec.submit_enabled fd = true) /\
  (submit_disabled fd = true <->
   Spec.parseable_number (FormData.pH fd) = false \/
   Spec.parseable_number (FormData.turbidity fd) = false \/
   Spec.parseable_number (FormData.temperature fd) = false \/
   Spec.parseable_number (FormData.dissolvedOxygen fd) = false) /\
  (forall field typed : string,
      field ∈ ["pH"; "turbidity"; "temperature"; "dissolvedOxygen"]%string ->
      valid_floating_point_number typed = false ->
      submit_disabled
        (formData (onChange field typed (changes events initial))) = true).
Proof.
  cbn zeta.
  rewrite (submit_disabled_parseable _ (reachable_from_number_inputs events)).
  unfold Spec.submit_enabled.
  split; [|split].
  - now rewrite negb_false_iff.
  - rewrite negb_true_iff, !andb_false_iff. tauto.
  - intros field typed. apply onChange_non_numeric.
Qed.

Lemma submit_enabled_iff_parseable_witness :
  submit_disabled
    (formData (onChange "turbidity" "abc"
                 (changes [("pH", "7.2"); ("turbidity", "1.5");
                           ("temperature", "22"); ("dissolvedOxygen", "8")]%string
                    initial))) = true.
Proof.
  apply (proj2 (proj2 (submit_enabled_iff_parseable _))).
  - apply (bool_decide_unpack _). vm_compute. reflexivity.
  - vm_compute. reflexivity.
Defined.









End ManualEntry.

(* ================================================================== *)
(** * Finiteness of the readings held                                  *)
(* ================================================================== *)

Section Finiteness.

Local Open Scope number_scope.





End Finiteness.

(* ================================================================== *)
(** * The environment over time                                        *)
(* ================================================================== *)

Section Environment.

Lemma later_refl (w : World) : later w w.
Proof. repeat split; lia. Qed.

Lemma later_trans (w1 w2 w3 : World) : later w1 w2 -> later w2 w3 -> later w1 w3.
Proof.
  intros (Hr & Hc & Hn & Hm) (Hr' & Hc' & Hn' & Hm').
  repeat split; [congruence | congruence | lia | lia].
Qed.

Lemma later_random_in_range (w w' : World) :
  later w w' -> random_in_range w -> random_in_range w'.
Proof. intros (Hr & _) H n. rewrite Hr. apply H. Qed.

Lemma later_monotone_clock (w w' : World) :
  later w w' -> monotone_clock w -> monotone_clock w'.
Proof. intros (_ & Hc & _) H i j Hij. rewrite Hc. now apply H. Qed.

(** Under a clock that never runs backwards, what a later state of the
    environment reads next is no earlier than what an earlier state reads. *)
Lemma later_clock_le (w w' : World) :
  monotone_clock w -> later w w' ->
  clock_reads w (clock_next w) <= clock_reads w' (clock_next w').
Proof. intros H (_ & -> & _ & Hm). now apply H. Qed.

Lemma Math_random_later (w : World) : later w (snd (Math_random w)).
Proof. repeat split; cbn; lia. Qed.

Lemma Date_now_later (w : World) : later w (snd (Date_now w)).
Proof. repeat split; cbn; lia. Qed.

Lemma bind_later {A B : Type} (c : M A) (k : A -> M B) (w : World) :
  later w (snd (c w)) -> (forall a w', later w' (snd (k a w'))) ->
  later w (snd (bind c k w)).
Proof.
  intros Hc Hk. unfold bind. destruct (c w) as [a w'].
  eapply later_trans; [exact Hc | apply Hk].
Qed.

Lemma foldM_later {A S : Type} (body : S -> A -> M S) :
  (forall s x w, later w (snd (body s x w))) ->
  forall xs s w, later w (snd (foldM body xs s w)).
Proof.
  intros Hbody xs. induction xs as [|x xs IH]; intros s w; cbn [foldM].
  - apply later_refl.
  - apply bind_later; [apply Hbody | intros; apply IH].
Qed.

End Environment.

Section ForEachBetween.

Context {S A V : Type}.
Variable proj : S -> gmap string V.
Variable key : A -> string.
Variable body : S -> A -> M S.
Variable stored : World -> World -> string -> V -> Prop.
Hypothesis body_later : forall (s : S) (x : A) (w : World), later w (snd (body s x w)).
Hypothesis body_inserts :
  forall (s : S) (x : A) (w : World),
    exists v, stored w (snd (body s x w)) (key x) v /\
              proj (fst (body s x w)) = <[key x := v]> (proj s).

Lemma foldM_insert_between (xs : list A) (s : S) (w : World) (k : string) :
  let res := foldM body xs s w in
  ((k ∉ map key xs) /\ proj (fst res) !! k = proj s !! k) \/
  (k ∈ map key xs /\
   exists v w1 w2, later w w1 /\ later w2 (snd res) /\ stored w1 w2 k v /\
                   proj (fst res) !! k = Some v).
Proof.
  revert s w. induction xs as [|x xs IH]; intros s w; cbn [foldM map].
  - left. split; [apply not_elem_of_nil | reflexivity].
  - unfold bind. pose proof (body_later s x w) as Hl.
    destruct (body_inserts s x w) as (v & Hv & Hp).
    destruct (body s x w) as [s' w'] eqn:E. cbn [fst snd] in *.
    pose proof (foldM_later body body_later xs s' w') as Hl'.
    destruct (IH s' w') as [[Hk Hlook] | (Hk & v' & w1 & w2 & H1 & H2 & Hs & Hlook)].
    + cbn zeta in Hlook. rewrite Hlook, Hp.
      destruct (decide (key x = k)) as [<- | Hne].
      * right. split; [apply list_elem_of_here |].
        exists v, w, w'. split; [apply later_refl |].
        split; [exact Hl' |]. split; [exact Hv | apply lookup_insert_eq].
      * left. split.
        -- rewrite not_elem_of_cons. split; [congruence | assumption].
        -- now apply lookup_insert_ne.
    + right. split; [now apply list_elem_of_further |].
      exists v', w1, w2. split; [eapply later_trans; eassumption |].
      split; [exact H2 | split; [exact Hs | exact Hlook]].
Qed.

End ForEachBetween.

(* ================================================================== *)
(** * The updaters, key by key                                         *)
(* ================================================================== *)

Section Updates.

Import Dashboard.

Lemma generateWaterBodyData_later (k : string) (w : World) :
  later w (snd (generateWaterBodyData k w)).
Proof.
  unfold generateWaterBodyData, bind, Math_random, Date_now, ret.
  repeat split; cbn; lia.
Qed.

Lemma refresh_site_later (updated : gmap string WaterQualityData)
    (x : WaterBody) (w : World) :
  later w (snd (refresh_site updated x w)).
Proof.
  unfold refresh_site. apply bind_later; [apply generateWaterBodyData_later |].
  intros. apply later_refl.
Qed.

Lemma refresh_site_inserts (updated : gmap string WaterQualityData)
    (x : WaterBody) (w : World) :
  exists v,
    (v = fst (generateWaterBodyData (id x) w) /\
     snd (refresh_site updated x w) = snd (generateWaterBodyData (id x) w)) /\
    fst (refresh_site updated x w) = <[id x := v]> updated.
Proof.
  unfold refresh_site, bind, ret.
  destruct (generateWaterBodyData (id x) w) as [d w'].
  exists d. repeat split.
Qed.

(** What one tick leaves in [currentData] under key [k], and when the
    reading was generated. *)
Lemma tick_current_between
    (prev : gmap string WaterQualityData) (w : World) (k : string) :
  let res := tick_current prev w in
  ((k ∉ map id waterBodies) /\ fst res !! k = prev !! k) \/
  (k ∈ map id waterBodies /\
   exists w1, later w w1 /\
              later (snd (generateWaterBodyData k w1)) (snd res) /\
              fst res !! k = Some (fst (generateWaterBodyData k w1))).
Proof.
  pose proof (foldM_insert_between (fun m => m) id refresh_site
                (fun w1 w2 k v =>
                   v = fst (generateWaterBodyData k w1) /\
                   w2 = snd (generateWaterBodyData k w1))
                refresh_site_later refresh_site_inserts waterBodies prev w k) as H.
  cbn zeta in *. unfold tick_current.
  destruct H as [H | (Hk & v & w1 & w2 & H1 & H2 & [-> ->] & Hv)];
    [left; exact H | right].
  split; [exact Hk |]. exists w1. split; [exact H1 | split; [exact H2 | exact Hv]].
Qed.

Lemma append_site_later (prev updated : gmap string (list WaterQualityData))
    (x : WaterBody) (w : World) :
  later w (snd (append_site prev updated x w)).
Proof.
  unfold append_site. apply bind_later; [apply generateWaterBodyData_later |].
  intros. apply later_refl.
Qed.

Lemma append_site_stores (prev updated : gmap string (list WaterQualityData))
    (x : WaterBody) (w : World) :
  exists v,
    (v = slice (-20) (default [] (prev !! id x)
                        ++ [fst (generateWaterBodyData (id x) w)]) /\
     snd (append_site prev updated x w) = snd (generateWaterBodyData (id x) w)) /\
    fst (append_site prev updated x w) = <[id x := v]> updated.
Proof.
  unfold append_site, bind, ret.
  destruct (generateWaterBodyData (id x) w) as [d w'].
  eexists. repeat split.
Qed.

Lemma tick_history_between
    (prev : gmap string (list WaterQualityData)) (w : World) (k : string) :
  let res := tick_history prev w in
  ((k ∉ map id waterBodies) /\ fst res !! k = prev !! k) \/
  (k ∈ map id waterBodies /\
   exists w1, later w w1 /\
              later (snd (generateWaterBodyData k w1)) (snd res) /\
              fst res !! k =
                Some (slice (-20) (default [] (prev !! k)
                                     ++ [fst (generateWaterBodyData k w1)]))).
Proof.
  pose proof (foldM_insert_between (fun m => m) id (append_site prev)
                (fun w1 w2 k v =>
                   v = slice (-20) (default [] (prev !! k)
                                      ++ [fst (generateWaterBodyData k w1)]) /\
                   w2 = snd (generateWaterBodyData k w1))
                (append_site_later prev) (append_site_stores prev)
                waterBodies prev w k) as H.
  cbn zeta in *. unfold tick_history.
  destruct H as [H | (Hk & v & w1 & w2 & H1 & H2 & [-> ->] & Hv)];
    [left; exact H | right].
  split; [exact Hk |]. exists w1. split; [exact H1 | split; [exact H2 | exact Hv]].
Qed.

Lemma tick_current_later (prev : gmap string WaterQualityData) (w : World) :
  later w (snd (tick_current prev w)).
Proof. unfold tick_current. apply (foldM_later refresh_site refresh_site_later). Qed.

Lemma tick_history_later (prev : gmap string (list WaterQualityData)) (w : World) :
  later w (snd (tick_history prev w)).
Proof.
  unfold tick_history.
  apply (foldM_later (append_site prev) (append_site_later prev)).
Qed.

(** One tick, taken apart: the two updaters run one after the other. *)
Lemma tick_currentData (s : State) (w : World) :
  currentData (fst (tick s w)) = fst (tick_current (currentData s) w).
Proof.
  unfold tick, bind, ret.
  destruct (tick_current (currentData s) w) as [cur w1]. cbn [fst snd].
  destruct (tick_history (historicalData s) w1) as [hist w2]. reflexivity.
Qed.

Lemma tick_manualReadings (s : State) (w : World) :
  manualReadings (fst (tick s w)) = manualReadings s.
Proof.
  unfold tick, bind, ret.
  destruct (tick_current (currentData s) w) as [cur w1].
  destruct (tick_history (historicalData s) w1) as [hist w2]. reflexivity.
Qed.

Lemma tick_world (s : State) (w : World) :
  snd (tick s w)
  = snd (tick_history (historicalData s) (snd (tick_current (currentData s) w))).
Proof.
  unfold tick, bind, ret.
  destruct (tick_current (currentData s) w) as [cur w1]. cbn [fst snd].
  destruct (tick_history (historicalData s) w1) as [hist w2]. reflexivity.
Qed.

Lemma tick_later (s : State) (w : World) : later w (snd (tick s w)).
Proof.
  rewrite tick_world.
  eapply later_trans; [apply tick_current_later | apply tick_history_later].
Qed.

Lemma ticks_invariant (P : State -> World -> Prop) :
  (forall s w, P s w -> P (fst (tick s w)) (snd (tick s w))) ->
  forall n s w, P s w -> P (fst (ticks n s w)) (snd (ticks n s w)).
Proof.
  intros Ht n. induction n as [|n IH]; intros s w H; cbn [ticks].
  - exact H.
  - unfold bind. specialize (Ht s w H). destruct (tick s w) as [s' w'].
    apply IH. exact Ht.
Qed.

Lemma run_invariant (P : State -> World -> Prop) (w : World) :
  P (fst (initialize initial w)) (snd (initialize initial w)) ->
  (forall s w, P s w -> P (fst (tick s w)) (snd (tick s w))) ->
  forall n, P (fst (run n w)) (snd (run n w)).
Proof.
  intros Hi Ht n. unfold run, bind.
  destruct (initialize initial w) as [s w']. now apply ticks_invariant.
Qed.

(** ** Initialization, site by site *)

Lemma seed_entry_later (k : string) (acc : list WaterQualityData) (i : Z)
    (w : World) :
  later w (snd (seed_entry k acc i w)).
Proof.
  unfold seed_entry. apply bind_later; [apply generateWaterBodyData_later |].
  intros d w'. apply bind_later; [apply Date_now_later |].
  intros. apply later_refl.
Qed.

Lemma seed_loop_later (k : string) (idx : list Z) (acc : list WaterQualityData)
    (w : World) :
  later w (snd (foldM (seed_entry k) idx acc w)).
Proof. apply (foldM_later (seed_entry k) (seed_entry_later k)). Qed.

Lemma initialize_site_later
    (init : gmap string WaterQualityData * gmap string (list WaterQualityData))
    (x : WaterBody) (w : World) :
  later w (snd (initialize_site init x w)).
Proof.
  unfold initialize_site. apply bind_later; [apply generateWaterBodyData_later |].
  intros d w'. apply bind_later; [apply seed_loop_later |].
  intros. apply later_refl.
Qed.

Lemma initialize_site_current
    (init : gmap string WaterQualityData * gmap string (list WaterQualityData))
    (x : WaterBody) (w : World) :
  fst (fst (initialize_site init x w))
  = <[id x := fst (generateWaterBodyData (id x) w)]> (fst init).
Proof.
  unfold initialize_site, bind, ret.
  destruct (generateWaterBodyData (id x) w) as [d w1]. cbn [fst snd].
  destruct (foldM (seed_entry (id x)) (upto 10) [] w1) as [h w2]. reflexivity.
Qed.

Lemma initialize_site_history
    (init : gmap string WaterQualityData * gmap string (list WaterQualityData))
    (x : WaterBody) (w : World) :
  snd (fst (initialize_site init x w))
  = <[id x := fst (foldM (seed_entry (id x)) (upto 10) []
                     (snd (generateWaterBodyData (id x) w)))]> (snd init) /\
  snd (initialize_site init x w)
  = snd (foldM (seed_entry (id x)) (upto 10) []
           (snd (generateWaterBodyData (id x) w))).
Proof.
  unfold initialize_site, bind, ret.
  destruct (generateWaterBodyData (id x) w) as [d w1]. cbn [fst snd].
  destruct (foldM (seed_entry (id x)) (upto 10) [] w1) as [h w2].
  split; reflexivity.
Qed.

Lemma initialize_currentData (s : State) (w : World) :
  currentData (fst (initialize s w))
  = fst (fst (foldM initialize_site waterBodies (∅, ∅) w)).
Proof.
  unfold initialize, bind, ret.
  destruct (foldM initialize_site waterBodies (∅, ∅) w) as [init w']. reflexivity.
Qed.

Lemma initialize_historicalData (s : State) (w : World) :
  historicalData (fst (initialize s w))
  = snd (fst (foldM initialize_site waterBodies (∅, ∅) w)).
Proof.
  unfold initialize, bind, ret.
  destruct (foldM initialize_site waterBodies (∅, ∅) w) as [init w']. reflexivity.
Qed.

Lemma initialize_world (s : State) (w : World) :
  snd (initialize s w) = snd (foldM initialize_site waterBodies (∅, ∅) w).
Proof.
  unfold initialize, bind, ret.
  destruct (foldM initialize_site waterBodies (∅, ∅) w) as [init w']. reflexivity.
Qed.

Lemma initialize_later (s : State) (w : World) : later w (snd (initialize s w)).
Proof.
  rewrite initialize_world.
  apply (foldM_later initialize_site initialize_site_later).
Qed.

(** What initialization leaves in [currentData] under key [k]. *)
Lemma initialize_current_between (s : State) (w : World) (k : string) :
  ((k ∉ map id waterBodies) /\ currentData (fst (initialize s w)) !! k = None) \/
  (k ∈ map id waterBodies /\
   exists w1, later w w1 /\
              currentData (fst (initialize s w)) !! k
              = Some (fst (generateWaterBodyData k w1))).
Proof.
  assert (Hstores : forall init x w0,
             exists v, v = fst (generateWaterBodyData (id x) w0) /\
                       fst (fst (initialize_site init x w0))
                       = <[id x := v]> (fst init)).
  { intros init x w0. eexists. split; [reflexivity |].
    apply initialize_site_current. }
  pose proof (foldM_insert_between fst id initialize_site
                (fun w1 w2 k v => v = fst (generateWaterBodyData k w1))
                initialize_site_later Hstores
                waterBodies (∅, ∅) w k) as H.
  cbn zeta in H. rewrite initialize_currentData.
  destruct H as [[Hk H] | (Hk & v & w1 & w2 & H1 & _ & -> & Hv)]; [left | right].
  - split; [exact Hk | rewrite H; apply lookup_empty].
  - split; [exact Hk | exists w1; split; [exact H1 | exact Hv]].
Qed.

(** What initialization leaves in [historicalData] under key [k]. *)
Lemma initialize_history_between (s : State) (w : World) (k : string) :
  ((k ∉ map id waterBodies) /\ historicalData (fst (initialize s w)) !! k = None) \/
  (k ∈ map id waterBodies /\
   exists w1, later w w1 /\
              later (snd (foldM (seed_entry k) (upto 10) [] w1))
                    (snd (initialize s w)) /\
              historicalData (fst (initialize s w)) !! k
              = Some (fst (foldM (seed_entry k) (upto 10) [] w1))).
Proof.
  assert (Hstores : forall init x w0,
             exists v,
               (exists w1', later w0 w1' /\
                  v = fst (foldM (seed_entry (id x)) (upto 10) [] w1') /\
                  snd (initialize_site init x w0)
                  = snd (foldM (seed_entry (id x)) (upto 10) [] w1')) /\
               snd (fst (initialize_site init x w0)) = <[id x := v]> (snd init)).
  { intros init x w0. destruct (initialize_site_history init x w0) as [Hh Hw].
    eexists. split; [|exact Hh].
    eexists. split; [apply generateWaterBodyData_later |].
    split; [reflexivity | exact Hw]. }
  pose proof (foldM_insert_between snd id initialize_site
                (fun w1 w2 k v =>
                   exists w1', later w1 w1' /\
                     v = fst (foldM (seed_entry k) (upto 10) [] w1') /\
                     w2 = snd (foldM (seed_entry k) (upto 10) [] w1'))
                initialize_site_later Hstores
                waterBodies (∅, ∅) w k) as H.
  cbn zeta in H. rewrite initialize_historicalData, initialize_world.
  destruct H as [[Hk H] | (Hk & v & w1 & w2 & H1 & H2 & (w1' & Hl & -> & ->) & Hv)];
    [left | right].
  - split; [exact Hk | rewrite H; apply lookup_empty].
  - split; [exact Hk |]. exists w1'.
    split; [eapply later_trans; eassumption | split; [exact H2 | exact Hv]].
Qed.

End Updates.

(* ================================================================== *)
(** * The state of the dashboard over time                             *)
(* ================================================================== *)

Section DashboardState.

Import Dashboard.

(** X1.  One firing of the interval, key by key.  The manual readings are
    kept.  A key that is no site id keeps what it held in [currentData]
    and in [historicalData].  A site id gets, in [currentData], a reading
    freshly generated for that site, and in [historicalData] its previous
    history (none counting as empty) with another reading generated for
    that site appended, cut to the last 20: the reading appended is
    generated after the one shown as current, from later draws. *)
Theorem tick_refreshes_every_site (s : State) (w : World) (k : string) :
  let s' := fst (tick s w) in
  manualReadings s' = manualReadings s /\
  (((k ∉ map id waterBodies) /\
    currentData s' !! k = currentData s !! k /\
    historicalData s' !! k = historicalData s !! k) \/
   (k ∈ map id waterBodies /\
    exists w1 w2,
      later w w1 /\ later (snd (generateWaterBodyData k w1)) w2 /\
      currentData s' !! k = Some (fst (generateWaterBodyData k w1)) /\
      historicalData s' !! k
      = Some (slice (-20) (default [] (historicalData s !! k)
                             ++ [fst (generateWaterBodyData k w2)])))).
Proof.
  cbn zeta. rewrite tick_currentData, tick_historicalData, tick_manualReadings.
  split; [reflexivity |].
  destruct (tick_current_between (currentData s) w k)
    as [[Hk Hc] | (Hk & w1 & H1 & H1' & Hc)];
    destruct (tick_history_between (historicalData s)
                (snd (tick_current (currentData s) w)) k)
    as [[Hk' Hh] | (Hk' & w2 & H2 & _ & Hh)]; try contradiction.
  - left. split; [exact Hk | split; assumption].
  - right. split; [exact Hk |]. exists w1, w2.
    split; [exact H1 |]. split; [eapply later_trans; eassumption |].
    split; assumption.
Qed.

Lemma find_site (k : string) :
  (exists waterBody, selectedWaterBodyInfo k = Some waterBody /\ id waterBody = k)
  <-> k ∈ map id waterBodies.
Proof.
  unfold selectedWaterBodyInfo. split.
  - intros (x & Hx & <-). apply find_some in Hx as [Hin _].
    apply list_elem_of_fmap_2. now apply list_elem_of_In.
  - intros Hk. apply list_elem_of_fmap in Hk as (x & -> & Hx).
    destruct (find (fun wb => String.eqb (id wb) (id x)) waterBodies) as [y|] eqn:E.
    + exists y. split; [reflexivity |].
      apply find_some in E as [_ E]. now apply String.eqb_eq in E.
    + exfalso. apply list_elem_of_In in Hx.
      pose proof (find_none _ _ E x Hx) as Hn. cbn in Hn.
      now rewrite String.eqb_refl in Hn.
Qed.

Lemma keys_after_initialize (w : World) (k : string) :
  (is_Some (currentData (fst (initialize initial w)) !! k)
   <-> k ∈ map id waterBodies) /\
  (is_Some (historicalData (fst (initialize initial w)) !! k)
   <-> k ∈ map id waterBodies).
Proof.
  split.
  - destruct (initialize_current_between initial w k)
      as [[Hk ->] | (Hk & w1 & _ & ->)].
    + split; [intros [? [=]] | contradiction].
    + split; [intros _; exact Hk | intros _; eexists; reflexivity].
  - destruct (initialize_history_between initial w k)
      as [[Hk ->] | (Hk & w1 & _ & _ & ->)].
    + split; [intros [? [=]] | contradiction].
    + split; [intros _; exact Hk | intros _; eexists; reflexivity].
Qed.

Lemma keys_after_tick (s : State) (w : World) :
  (forall k, (is_Some (currentData s !! k) <-> k ∈ map id waterBodies) /\
             (is_Some (historicalData s !! k) <-> k ∈ map id waterBodies)) ->
  forall k,
    (is_Some (currentData (fst (tick s w)) !! k) <-> k ∈ map id waterBodies) /\
    (is_Some (historicalData (fst (tick s w)) !! k) <-> k ∈ map id waterBodies).
Proof.
  intros H k.
  destruct (proj2 (tick_refreshes_every_site s w k))
    as [(Hk & -> & ->) | (Hk & w1 & w2 & _ & _ & -> & ->)].
  - apply H.
  - split; (split; [intros _; exact Hk | intros _; eexists; reflexivity]).
Qed.

Lemma keys_after_run (n : nat) (w : World) (k : string) :
  (is_Some (currentData (fst (run n w)) !! k) <-> k ∈ map id waterBodies) /\
  (is_Some (historicalData (fst (run n w)) !! k) <-> k ∈ map id waterBodies).
Proof.
  revert k.
  apply (run_invariant
           (fun s _ => forall k,
                (is_Some (currentData s !! k) <-> k ∈ map id waterBodies) /\
                (is_Some (historicalData s !! k) <-> k ∈ map id waterBodies)) w).
  - intros k. apply keys_after_initialize.
  - intros s w'. apply keys_after_tick.
Qed.

Lemma selectedWaterBodyData_own (s : State) (k : string) :
  (exists data, selectedWaterBodyData s k = Own data) <-> is_Some (currentData s !! k).
Proof.
  unfold selectedWaterBodyData, get. destruct (currentData s !! k) as [d|].
  - split; [intros _; now exists d | intros _; now exists d].
  - split; [|intros [? [=]]].
    intros [d Hd]. destruct (bool_decide _); discriminate.
Qed.

(** X2.  After initialization and any number of ticks the two state
    objects hold exactly the site ids: the selection has a current reading
    of its own exactly when it is a site id, which is exactly when it has
    a history and when [waterBodies.find] gives its site; the overview
    renders a card for every site, and none before initialization. *)
Theorem selection_defined_for_sites (n : nat) (w : World) :
  let s := fst (run n w) in
  (forall k : string,
      (exists data, selectedWaterBodyData s k = Own data)
      <-> k ∈ map id waterBodies) /\
  (forall k : string,
      is_Some (historicalData s !! k) <-> k ∈ map id waterBodies) /\
  (forall k : string,
      (exists waterBody, selectedWaterBodyInfo k = Some waterBody /\ id waterBody = k)
      <-> k ∈ map id waterBodies) /\
  Forall is_Some (overview s) /\
  Forall (fun card => card = None) (overview initial).
Proof.
  cbn zeta. split; [|split; [|split; [exact find_site | split]]].
  - intros k. rewrite selectedWaterBodyData_own. apply keys_after_run.
  - intros k. apply keys_after_run.
  - unfold overview. apply Forall_forall. intros card Hcard.
    apply list_elem_of_fmap in Hcard as (x & -> & Hx).
    assert (Hk : id x ∈ map id waterBodies) by now apply list_elem_of_fmap_2.
    apply (proj1 (keys_after_run n w (id x))) in Hk. destruct Hk as [d Hd].
    unfold get. rewrite Hd. now eexists.
  - unfold overview. apply Forall_forall. intros card Hcard.
    apply list_elem_of_fmap in Hcard as (x & -> & Hx).
    unfold get, initial. cbn [currentData]. rewrite lookup_empty.
    destruct (bool_decide _); reflexivity.
Qed.

End DashboardState.

Section HistoryLength.

Lemma single_seed_length (idx : list Z)
    (acc : list SingleSiteDashboard.WaterQualityData) (w : World) :
  length (fst (foldM SingleSiteDashboard.seed_entry idx acc w))
  = (length acc + length idx)%nat.
Proof.
  revert acc w. induction idx as [|i idx IH]; intros acc w; cbn [foldM].
  - cbn. lia.
  - unfold bind at 1.
    destruct (SingleSiteDashboard.seed_entry acc i w) as [acc' w'] eqn:E.
    rewrite IH. unfold SingleSiteDashboard.seed_entry, bind, ret in E.
    destruct (SingleSiteDashboard.sample _ w) as [d w1]. injection E as <- _.
    rewrite length_app. cbn. lia.
Qed.

Lemma single_tick_history (s : SingleSiteDashboard.State) (w : World) :
  SingleSiteDashboard.historicalData (fst (SingleSiteDashboard.tick s w))
  = slice (-20) (SingleSiteDashboard.historicalData s
                   ++ [SingleSiteDashboard.currentData
                         (fst (SingleSiteDashboard.tick s w))]).
Proof.
  unfold SingleSiteDashboard.tick, bind, ret.
  destruct (SingleSiteDashboard.sample Date_now w) as [d w']. reflexivity.
Qed.

Lemma single_ticks_length (n : nat) (s : SingleSiteDashboard.State) (w : World) :
  (length (SingleSiteDashboard.historicalData s) <= 20)%nat ->
  length (SingleSiteDashboard.historicalData
            (fst (SingleSiteDashboard.ticks n s w)))
  = Nat.min (length (SingleSiteDashboard.historicalData s) + n) 20.
Proof.
  revert s w. induction n as [|n IH]; intros s w Hs; cbn [SingleSiteDashboard.ticks].
  - unfold ret. cbn [fst]. lia.
  - unfold bind. pose proof (single_tick_history s w) as Ht.
    destruct (SingleSiteDashboard.tick s w) as [s' w']. cbn [fst] in Ht.
    assert (Hl : length (SingleSiteDashboard.historicalData s')
                 = Nat.min (length (SingleSiteDashboard.historicalData s) + 1) 20).
    { rewrite Ht, slice_last, length_drop, length_app. cbn. lia. }
    rewrite IH by lia. lia.
Qed.

(** X3.  After initialization and [n] ticks every site of the multi-site
    dashboard holds exactly [min (10 + n) 20] readings, and so does the one
    history of the single-site dashboard: the buffer is full from the
    tenth tick on and stays full. *)
Theorem history_fills_then_stays_full (n : nat) (w : World) :
  Forall (fun waterBody =>
            length (Dashboard.selectedHistoricalData (fst (Dashboard.run n w))
                      (Dashboard.id waterBody))
            = Nat.min (10 + n) 20)
         Dashboard.waterBodies /\
  length (SingleSiteDashboard.historicalData (fst (SingleSiteDashboard.run n w)))
  = Nat.min (10 + n) 20.
Proof.
  split; [apply run_length |].
  unfold SingleSiteDashboard.run, SingleSiteDashboard.initialize, bind, ret.
  destruct (SingleSiteDashboard.initial w) as [s0 w0].
  pose proof (single_seed_length (Dashboard.upto 10) [] w0) as H10.
  destruct (foldM SingleSiteDashboard.seed_entry (Dashboard.upto 10) [] w0)
    as [h w1]. cbn [fst] in H10.
  rewrite single_ticks_length;
    cbn [SingleSiteDashboard.historicalData]; rewrite H10; cbn; lia.
Qed.

End HistoryLength.

(* ================================================================== *)
(** * The readings held                                                *)
(* ================================================================== *)

Section HeldReadings.

Import Dashboard.

Variable P : WaterQualityData -> Prop.
Hypothesis P_fields :
  forall d d' : WaterQualityData,
    pH d' = pH d -> turbidity d' = turbidity d ->
    temperature d' = temperature d -> dissolvedOxygen d' = dissolvedOxygen d ->
    P d -> P d'.
Hypothesis P_generated :
  forall (k : string) (w : World),
    k ∈ map id waterBodies -> random_in_range w ->
    P (fst (generateWaterBodyData k w)).

Lemma seed_loop_holds (k : string) (idx : list Z)
    (acc : list WaterQualityData) (w : World) :
  k ∈ map id waterBodies -> random_in_range w -> Forall P acc ->
  Forall P (fst (foldM (seed_entry k) idx acc w)).
Proof.
  intros Hk. revert acc w.
  induction idx as [|i idx IH]; intros acc w Hw Hacc; cbn [foldM].
  - exact Hacc.
  - unfold bind at 1. pose proof (seed_entry_later k acc i w) as Hl.
    assert (Hstep : Forall P (fst (seed_entry k acc i w))).
    { unfold seed_entry, bind, ret. pose proof (P_generated k w Hk Hw) as Hd.
      destruct (generateWaterBodyData k w) as [d w1]. cbn [fst] in *.
      apply Forall_app. split; [exact Hacc |].
      apply Forall_cons. split; [|apply Forall_nil_2].
      now apply (P_fields d). }
    destruct (seed_entry k acc i w) as [acc' w']. cbn [fst snd] in *.
    apply IH; [eapply later_random_in_range; eassumption | exact Hstep].
Qed.

Lemma held_after_initialize (w : World) :
  random_in_range w ->
  map_Forall (fun _ d => P d) (currentData (fst (initialize initial w))) /\
  map_Forall (fun _ history => Forall P history)
             (historicalData (fst (initialize initial w))).
Proof.
  intros Hw. split; intros k v Hv.
  - destruct (initialize_current_between initial w k)
      as [[_ Hn] | (Hk & w1 & H1 & Hs)]; [congruence |].
    rewrite Hs in Hv. apply (inj Some) in Hv. subst v.
    apply P_generated; [exact Hk | eapply later_random_in_range; eassumption].
  - destruct (initialize_history_between initial w k)
      as [[_ Hn] | (Hk & w1 & H1 & _ & Hs)]; [congruence |].
    rewrite Hs in Hv. apply (inj Some) in Hv. subst v.
    apply seed_loop_holds;
      [exact Hk | eapply later_random_in_range; eassumption | apply Forall_nil_2].
Qed.

Lemma held_after_tick (s : State) (w : World) :
  random_in_range w ->
  map_Forall (fun _ d => P d) (currentData s) ->
  map_Forall (fun _ history => Forall P history) (historicalData s) ->
  map_Forall (fun _ d => P d) (currentData (fst (tick s w))) /\
  map_Forall (fun _ history => Forall P history) (historicalData (fst (tick s w))).
Proof.
  intros Hw Hc Hh. split; intros k v Hv.
  - destruct (proj2 (tick_refreshes_every_site s w k))
      as [(_ & E & _) | (Hk & w1 & w2 & H1 & _ & E & _)]; rewrite E in Hv.
    + exact (Hc k v Hv).
    + apply (inj Some) in Hv. subst v.
      apply P_generated; [exact Hk | eapply later_random_in_range; eassumption].
  - destruct (proj2 (tick_refreshes_every_site s w k))
      as [(_ & _ & E) | (Hk & w1 & w2 & H1 & H2 & _ & E)]; rewrite E in Hv.
    + exact (Hh k v Hv).
    + apply (inj Some) in Hv. subst v. rewrite slice_last. apply Forall_drop.
      apply Forall_app. split.
      * destruct (historicalData s !! k) as [h|] eqn:Eh; cbn.
        -- exact (Hh k h Eh).
        -- apply Forall_nil_2.
      * apply Forall_cons. split; [|apply Forall_nil_2].
        apply P_generated; [exact Hk |].
        eapply later_random_in_range; [|exact Hw].
        eapply later_trans; [exact H1 |].
        eapply later_trans; [apply generateWaterBodyData_later | exact H2].
Qed.

Lemma held_after_run (n : nat) (w : World) :
  random_in_range w ->
  map_Forall (fun _ d => P d) (currentData (fst (run n w))) /\
  map_Forall (fun _ history => Forall P history)
             (historicalData (fst (run n w))).
Proof.
  intros Hw.
  apply (run_invariant
           (fun s w' =>
              random_in_range w' /\
              map_Forall (fun _ d => P d) (currentData s) /\
              map_Forall (fun _ history => Forall P history) (historicalData s))
           w).
  - split; [|now apply held_after_initialize].
    eapply later_random_in_range; [apply initialize_later | exact Hw].
  - intros s w' (Hw' & Hc & Hh). split; [|now apply held_after_tick].
    eapply later_random_in_range; [apply tick_later | exact Hw'].
Qed.

End HeldReadings.

Section GeneratedRanges.

Import Dashboard.
Local Open Scope number_scope.

Lemma baseline_ranges (k : string) (B : Baseline.t) :
  getWaterBodyBaseline k = Own B ->
  exists p t c o : Q,
    B = {| Baseline.pH := Fin p; Baseline.turbidity := Fin t;
           Baseline.temperature := Fin c; Baseline.dissolvedOxygen := Fin o |} /\
    (6.8 <= p <= 7.8 /\ 0.5 <= t <= 4 /\ 21 <= c <= 26 /\ 5.5 <= o <= 8.5)%Q.
Proof.
  rewrite getWaterBodyBaseline_cases.
  assert (Htable : forall k b, baselines !! k = Some b ->
            exists p t c o : Q,
              b = {| Baseline.pH := Fin p; Baseline.turbidity := Fin t;
                     Baseline.temperature := Fin c;
                     Baseline.dissolvedOxygen := Fin o |} /\
              (6.8 <= p <= 7.8 /\ 0.5 <= t <= 4 /\ 21 <= c <= 26 /\
               5.5 <= o <= 8.5)%Q).
  { intros k' b Hb. unfold baselines in Hb.
    apply elem_of_list_to_map_2 in Hb.
    repeat (apply elem_of_cons in Hb as [Hb | Hb];
            [injection Hb as _ ->; do 4 eexists; split; [reflexivity | lra] |]).
    now apply elem_of_nil in Hb. }
  destruct (baselines !! k) as [b|] eqn:E.
  - intros [= <-]. exact (Htable k b E).
  - destruct (bool_decide _); [discriminate |].
    intros [= <-]. exact (Htable _ _ baselines_default).
Qed.

Lemma site_baseline (k : string) :
  k ∈ map id waterBodies -> exists B, getWaterBodyBaseline k = Own B.
Proof.
  intros Hk. rewrite getWaterBodyBaseline_cases.
  destruct (baselines !! k) as [b|] eqn:E; [now exists b |].
  apply baselines_keys in E. contradiction.
Qed.

Lemma Math_max_Fin (c x : Q) :
  Math_max (Fin c) (Fin x) = Fin (if Qlt_bool c x then x else c).
Proof. cbn. destruct (Qlt_bool c x); reflexivity. Qed.

(** The values of a generated reading, for draws in [0, 1). *)
Lemma generated_values (k : string) (B : Baseline.t) (w : World) :
  getWaterBodyBaseline k = Own B -> random_in_range w ->
  exists p t c o n0 n1 n2 n3 : Q,
    B = {| Baseline.pH := Fin p; Baseline.turbidity := Fin t;
           Baseline.temperature := Fin c; Baseline.dissolvedOxygen := Fin o |} /\
    (6.8 <= p <= 7.8 /\ 0.5 <= t <= 4 /\ 21 <= c <= 26 /\ 5.5 <= o <= 8.5)%Q /\
    (n0 == (random_draws w (random_next w + 0) - 0.5) * 1.0 /\
     n1 == (random_draws w (random_next w + 1) - 0.5) * 1.5 /\
     n2 == (random_draws w (random_next w + 2) - 0.5) * 3.0 /\
     n3 == (random_draws w (random_next w + 3) - 0.5) * 2.0)%Q /\
    (-0.5 <= n0 < 0.5 /\ -0.75 <= n1 < 0.75 /\ -1.5 <= n2 < 1.5 /\ -1 <= n3 < 1)%Q /\
    pH (fst (generateWaterBodyData k w)) = Fin (p + n0) /\
    turbidity (fst (generateWaterBodyData k w))
    = Fin (if Qlt_bool 0.1 (t + n1) then t + n1 else 0.1) /\
    temperature (fst (generateWaterBodyData k w)) = Fin (c + n2) /\
    dissolvedOxygen (fst (generateWaterBodyData k w))
    = Fin (if Qlt_bool 3 (o + n3) then o + n3 else 3).
Proof.
  intros HB Hw. rewrite generateWaterBodyData_reading. cbn zeta.
  destruct (baseline_ranges k B HB) as (p & t & c & o & -> & Hp & Ht & Hc & Ho).
  rewrite HB.
  cbn [pH turbidity temperature dissolvedOxygen num_prop Baseline.pH
       Baseline.turbidity Baseline.temperature Baseline.dissolvedOxygen].
  pose proof (Hw (random_next w + 0)%nat) as R0.
  pose proof (Hw (random_next w + 1)%nat) as R1.
  pose proof (Hw (random_next w + 2)%nat) as R2.
  pose proof (Hw (random_next w + 3)%nat) as R3.
  destruct (noise_term _ 1.0 R0 ltac:(lra)) as [-> H0].
  destruct (noise_term _ 1.5 R1 ltac:(lra)) as [-> H1].
  destruct (noise_term _ 3.0 R2 ltac:(lra)) as [-> H2].
  destruct (noise_term _ 2.0 R3 ltac:(lra)) as [-> H3].
  rewrite (proj1 (perturbed_within p _ _ ltac:(lra) H0 ltac:(lra))).
  rewrite (proj1 (perturbed_within t _ _ ltac:(lra) H1 ltac:(lra))).
  rewrite (proj1 (perturbed_within c _ _ ltac:(lra) H2 ltac:(lra))).
  rewrite (proj1 (perturbed_within o _ _ ltac:(lra) H3 ltac:(lra))).
  rewrite !Math_max_Fin.
  exists p, t, c, o. do 4 eexists.
  split; [reflexivity |]. split; [tauto |].
  split; [repeat split; reflexivity |].
  split; [|repeat split; reflexivity].
  repeat split; nra.
Qed.

Lemma generated_in_range (k : string) (w : World) :
  k ∈ map id waterBodies -> random_in_range w ->
  exists a b c e : Q,
    pH (fst (generateWaterBodyData k w)) = Fin a /\
    turbidity (fst (generateWaterBodyData k w)) = Fin b /\
    temperature (fst (generateWaterBodyData k w)) = Fin c /\
    dissolvedOxygen (fst (generateWaterBodyData k w)) = Fin e /\
    (6.3 <= a <= 8.3 /\ 0.1 <= b <= 4.75 /\ 19.5 <= c <= 27.5 /\
     4.5 <= e <= 9.5)%Q.
Proof.
  intros Hk Hw. destruct (site_baseline k Hk) as [B HB].
  destruct (generated_values k B w HB Hw)
    as (p & t & c & o & n0 & n1 & n2 & n3 & _ & Hb & _ & Hn & -> & -> & -> & ->).
  do 4 eexists. do 4 (split; [reflexivity |]).
  destruct (Qlt_bool 0.1 (t + n1)) eqn:E1; destruct (Qlt_bool 3 (o + n3)) eqn:E3;
    try (apply Qlt_bool_iff in E1); try (apply Qlt_bool_iff in E3);
    repeat split; try lra.
  all: exfalso; apply (f_equal negb) in E3; cbn in E3;
    assert (Hlt : (3 < o + n3)%Q) by lra; apply Qlt_bool_iff in Hlt;
    rewrite Hlt in E3; discriminate.
Qed.

End GeneratedRanges.

Section HeldReadingsRange.

Import Dashboard.
Local Open Scope number_scope.

(** X4.  With draws in [0, 1), every reading held after initialization
    and any number of ticks, current or in a history, has finite values
    within the span of the baseline table widened by the noise: pH within
    6.3 and 8.3, turbidity within 0.1 and 4.75, temperature within 19.5
    and 27.5, dissolved oxygen within 4.5 and 9.5. *)
Theorem held_readings_in_range (n : nat) (w : World) :
  random_in_range w ->
  let in_range := fun d : WaterQualityData =>
    exists a b c e : Q,
      pH d = Fin a /\ turbidity d = Fin b /\ temperature d = Fin c /\
      dissolvedOxygen d = Fin e /\
      (6.3 <= a <= 8.3 /\ 0.1 <= b <= 4.75 /\ 19.5 <= c <= 27.5 /\
       4.5 <= e <= 9.5)%Q in
  map_Forall (fun _ d => in_range d) (currentData (fst (run n w))) /\
  map_Forall (fun _ history => Forall in_range history)
             (historicalData (fst (run n w))).
Proof.
  intros Hw in_range. apply held_after_run; [| |exact Hw].
  - intros d d' E1 E2 E3 E4 (a & b & c & e & H1 & H2 & H3 & H4 & H).
    exists a, b, c, e. rewrite E1, E2, E3, E4. tauto.
  - intros k w'. apply generated_in_range.
Qed.

Lemma held_readings_in_range_witness :
  let w := still_world 0.25 100000 in
  let in_range := fun d : WaterQualityData =>
    exists a b c e : Q,
      pH d = Fin a /\ turbidity d = Fin b /\ temperature d = Fin c /\
      dissolvedOxygen d = Fin e /\
      (6.3 <= a <= 8.3 /\ 0.1 <= b <= 4.75 /\ 19.5 <= c <= 27.5 /\
       4.5 <= e <= 9.5)%Q in
  map_Forall (fun _ d => in_range d) (currentData (fst (run 12 w))) /\
  map_Forall (fun _ history => Forall in_range history)
             (historicalData (fst (run 12 w))).
Proof.
  intros w. apply (held_readings_in_range 12 w). intros i. cbn. lra.
Defined.

Lemma getStatus_Fin_not_danger (a lo hi : Q) (optimal : number * number) :
  (lo <= a <= hi)%Q -> getStatus (Fin a) (Fin lo) (Fin hi) optimal <> danger.
Proof.
  intros [Hlo Hhi]. unfold getStatus, gtb. cbn [ltb].
  assert (E1 : Qlt_bool a lo = false).
  { destruct (Qlt_bool a lo) eqn:E; [|reflexivity]. apply Qlt_bool_iff in E. lra. }
  assert (E2 : Qlt_bool hi a = false).
  { destruct (Qlt_bool hi a) eqn:E; [|reflexivity]. apply Qlt_bool_iff in E. lra. }
  rewrite E1, E2. cbn. destruct (_ && _); discriminate.
Qed.

(** X5.  With draws in [0, 1), no reading held after initialization and
    any number of ticks, current or in a history, is classified ['danger']
    for pH or for temperature by the thresholds of the parameter cards.
    Turbidity and dissolved oxygen can be: right after initialization the
    current reading of 'musi-river' is ['danger'] for turbidity when every
    draw is 0.9, and for dissolved oxygen when every draw is 0.1. *)
Theorem pH_and_temperature_never_danger :
  (forall (n : nat) (w : World),
      random_in_range w ->
      let calm := fun d : WaterQualityData =>
        pH_status d <> danger /\ temperature_status d <> danger in
      map_Forall (fun _ d => calm d) (currentData (fst (run n w))) /\
      map_Forall (fun _ history => Forall calm history)
                 (historicalData (fst (run n w)))) /\
  (exists d : WaterQualityData,
      currentData (fst (run 0 (still_world 0.9 100000))) !! "musi-river"%string
      = Some d /\
      turbidity_status d = danger) /\
  (exists d : WaterQualityData,
      currentData (fst (run 0 (still_world 0.1 100000))) !! "musi-river"%string
      = Some d /\
      dissolvedOxygen_status d = danger).
Proof.
  split; [|split; eexists; split; vm_compute; reflexivity].
  intros n w Hw calm. apply held_after_run; [| |exact Hw].
  - intros d d' E1 _ E3 _. unfold calm, pH_status, temperature_status.
    now rewrite E1, E3.
  - intros k w' Hk Hw'.
    destruct (generated_in_range k w' Hk Hw')
      as (a & b & c & e & H1 & _ & H3 & _ & Ha & _ & Hc & _).
    unfold calm, pH_status, temperature_status. rewrite H1, H3.
    split; apply getStatus_Fin_not_danger; lra.
Qed.

Lemma pH_and_temperature_never_danger_witness :
  let w := still_world 0.25 100000 in
  let calm := fun d : WaterQualityData =>
    pH_status d <> danger /\ temperature_status d <> danger in
  map_Forall (fun _ d => calm d) (currentData (fst (run 12 w))) /\
  map_Forall (fun _ history => Forall calm history)
             (historicalData (fst (run 12 w))).
Proof.
  intros w. apply (proj1 pH_and_temperature_never_danger 12%nat w).
  intros i. cbn. lra.
Defined.

End HeldReadingsRange.

(* ================================================================== *)
(** * The order of a history                                           *)
(* ================================================================== *)

Section Chronology.

Import Dashboard.

Lemma StronglySorted_snoc (l : list Z) (x : Z) :
  StronglySorted Z.le l -> Forall (fun t => t <= x) l ->
  StronglySorted Z.le (l ++ [x]).
Proof.
  induction l as [|a l IH]; intros Hs Hx; cbn.
  - constructor; [constructor | apply Forall_nil_2].
  - apply StronglySorted_inv in Hs as [Hs Ha].
    apply Forall_cons in Hx as [Hax Hx].
    constructor; [now apply IH |].
    apply Forall_app. split; [exact Ha |].
    apply Forall_cons. split; [exact Hax | apply Forall_nil_2].
Qed.

Lemma StronglySorted_drop (n : nat) (l : list Z) :
  StronglySorted Z.le l -> StronglySorted Z.le (drop n l).
Proof.
  revert l. induction n as [|n IH]; intros l Hs; [exact Hs |].
  destruct l as [|a l]; [exact Hs |]. cbn.
  apply IH. now apply StronglySorted_inv in Hs as [Hs _].
Qed.

Lemma generateWaterBodyData_stamp (k : string) (w : World) :
  timestamp (fst (generateWaterBodyData k w)) = clock_reads w (clock_next w) /\
  clock_next (snd (generateWaterBodyData k w)) = S (clock_next w).
Proof.
  unfold generateWaterBodyData, bind, Math_random, Date_now, ret.
  cbn [fst snd timestamp clock_next clock_reads]. split; reflexivity.
Qed.

Lemma seed_entry_stamp (k : string) (acc : list WaterQualityData) (i : Z)
    (w : World) :
  map timestamp (fst (seed_entry k acc i w))
  = map timestamp acc ++ [clock_reads w (S (clock_next w)) - (10 - i) * 3000] /\
  clock_next (snd (seed_entry k acc i w)) = S (S (clock_next w)).
Proof.
  unfold seed_entry, generateWaterBodyData, bind, Math_random, Date_now, ret.
  cbn [fst snd timestamp clock_next clock_reads]. rewrite map_app.
  split; reflexivity.
Qed.

(** The seeding loop, from index [a] on: the stamps stay in order, and
    stay at least [(10 - index) * 3] seconds behind the clock. *)
Lemma seed_loop_sorted (k : string) (m a : nat)
    (acc : list WaterQualityData) (w : World) :
  monotone_clock w ->
  StronglySorted Z.le (map timestamp acc) ->
  Forall (fun t => t <= clock_reads w (clock_next w) - (10 - Z.of_nat a) * 3000)
         (map timestamp acc) ->
  StronglySorted Z.le
    (map timestamp (fst (foldM (seed_entry k) (map Z.of_nat (seq a m)) acc w))) /\
  Forall (fun t =>
            t <= clock_reads w
                   (clock_next (snd (foldM (seed_entry k)
                                       (map Z.of_nat (seq a m)) acc w)))
                 - (10 - Z.of_nat (a + m)) * 3000)
         (map timestamp (fst (foldM (seed_entry k) (map Z.of_nat (seq a m)) acc w))).
Proof.
  intros Hmono. revert a acc w Hmono.
  induction m as [|m IH]; intros a acc w Hmono Hs Hb; cbn [seq map foldM].
  - cbn [ret fst snd]. unfold ret. cbn [fst snd]. rewrite Nat.add_0_r.
    split; assumption.
  - unfold bind at 1 2 3.
    destruct (seed_entry_stamp k acc (Z.of_nat a) w) as [Ht Hn].
    pose proof (seed_entry_later k acc (Z.of_nat a) w) as Hl.
    destruct (seed_entry k acc (Z.of_nat a) w) as [acc' w']. cbn [fst snd] in *.
    destruct Hl as (_ & Hc & _ & _).
    assert (Hmono' : monotone_clock w').
    { intros i j Hij. rewrite Hc. now apply Hmono. }
    pose proof (Hmono (clock_next w) (S (clock_next w)) ltac:(lia)) as H01.
    pose proof (Hmono (S (clock_next w)) (S (S (clock_next w))) ltac:(lia)) as H12.
    destruct (IH (S a) acc' w' Hmono') as [Hs' Hb'].
    + rewrite Ht. apply StronglySorted_snoc; [exact Hs |].
      eapply Forall_impl; [exact Hb |]. cbn. intros t Ht'. lia.
    + rewrite Ht, Hc, Hn. apply Forall_app. split.
      * eapply Forall_impl; [exact Hb |]. cbn. intros t Ht'. lia.
      * apply Forall_cons. split; [lia | apply Forall_nil_2].
    + rewrite Hc in Hb'. replace (a + S m)%nat with (S a + m)%nat by lia.
      split; assumption.
Qed.

Lemma Forall_map_timestamp (R : Z -> Prop) (h : list WaterQualityData) :
  Forall R (map timestamp h) <-> Forall (fun d => R (timestamp d)) h.
Proof.
  induction h as [|d h IH]; cbn; [split; intros _; apply Forall_nil_2 |].
  rewrite !Forall_cons, IH. reflexivity.
Qed.

Lemma stamped_later (w w' : World) (h : list WaterQualityData) :
  monotone_clock w -> later w w' ->
  Forall (fun d => timestamp d <= clock_reads w (clock_next w)) h ->
  Forall (fun d => timestamp d <= clock_reads w' (clock_next w')) h.
Proof.
  intros Hm Hl Hb. pose proof (later_clock_le w w' Hm Hl).
  eapply Forall_impl; [exact Hb |]. cbn. intros d Hd. lia.
Qed.

Lemma ordered_after_initialize (w : World) (k : string)
    (h : list WaterQualityData) :
  monotone_clock w ->
  historicalData (fst (initialize initial w)) !! k = Some h ->
  StronglySorted Z.le (map timestamp h) /\
  Forall (fun d => timestamp d
                   <= clock_reads (snd (initialize initial w))
                        (clock_next (snd (initialize initial w)))) h.
Proof.
  intros Hm Hh.
  destruct (initialize_history_between initial w k)
    as [[_ Hn] | (Hk & w1 & H1 & H2 & Hs)]; [congruence |].
  rewrite Hs in Hh. apply (inj Some) in Hh. subst h.
  pose proof (later_monotone_clock w w1 H1 Hm) as Hm1.
  destruct (seed_loop_sorted k 10 0 [] w1 Hm1) as [Hsorted Hbound].
  { constructor. }
  { apply Forall_nil_2. }
  change (map Z.of_nat (seq 0 10)) with (upto 10) in *.
  split; [exact Hsorted |].
  pose proof (seed_loop_later k (upto 10) [] w1) as Hl.
  set (res := foldM (seed_entry k) (upto 10) [] w1) in *.
  apply Forall_map_timestamp in Hbound.
  eapply Forall_impl; [exact Hbound |]. cbn beta. intros d Hd.
  destruct Hl as (_ & Hc1 & _ & _). destruct H2 as (_ & Hc2 & _ & Hn2).
  rewrite Hc2, Hc1.
  pose proof (Hm1 _ _ Hn2). lia.
Qed.

Lemma ordered_after_tick (s : State) (w : World) :
  monotone_clock w ->
  (forall k h, historicalData s !! k = Some h ->
     StronglySorted Z.le (map timestamp h) /\
     Forall (fun d => timestamp d <= clock_reads w (clock_next w)) h) ->
  forall k h, historicalData (fst (tick s w)) !! k = Some h ->
    StronglySorted Z.le (map timestamp h) /\
    Forall (fun d => timestamp d
                     <= clock_reads (snd (tick s w)) (clock_next (snd (tick s w)))) h.
Proof.
  intros Hm IH k h. rewrite tick_historicalData, tick_world.
  pose proof (tick_current_later (currentData s) w) as Hlc.
  set (wc := snd (tick_current (currentData s) w)) in *.
  pose proof (tick_history_later (historicalData s) wc) as Hlh.
  pose proof (later_monotone_clock w wc Hlc Hm) as Hmc.
  intros Hh.
  destruct (tick_history_between (historicalData s) wc k)
    as [[_ E] | (Hk & w1 & H1 & H2 & E)]; rewrite E in Hh.
  - destruct (IH k h Hh) as [Hs Hb]. split; [exact Hs |].
    eapply stamped_later; [exact Hm | | exact Hb].
    eapply later_trans; eassumption.
  - apply (inj Some) in Hh. subst h.
    assert (Hold : StronglySorted Z.le
                     (map timestamp (default [] (historicalData s !! k))) /\
                   Forall (fun d => timestamp d <= clock_reads w (clock_next w))
                          (default [] (historicalData s !! k))).
    { destruct (historicalData s !! k) as [h0|] eqn:E0; cbn.
      - exact (IH k h0 E0).
      - split; [constructor | apply Forall_nil_2]. }
    destruct Hold as [Hs Hb].
    destruct (generateWaterBodyData_stamp k w1) as [Hstamp Hnext].
    pose proof (later_trans _ _ _ Hlc H1) as Hw1.
    pose proof (later_monotone_clock w w1 Hw1 Hm) as Hm1.
    pose proof (later_clock_le w w1 Hm Hw1) as Hle.
    rewrite slice_last. split.
    + rewrite <- skipn_map. apply StronglySorted_drop.
      rewrite map_app. cbn [map].
      apply StronglySorted_snoc; [exact Hs |].
      apply Forall_map_timestamp. eapply Forall_impl; [exact Hb |].
      cbn. intros d Hd. rewrite Hstamp. lia.
    + apply Forall_drop.
      apply Forall_app. split.
      * eapply stamped_later; [exact Hm | | exact Hb].
        eapply later_trans; [exact Hlc | exact Hlh].
      * apply Forall_cons. split; [|apply Forall_nil_2].
        rewrite Hstamp. destruct H2 as (_ & Hc2 & _ & Hn2).
        rewrite Hnext in Hn2. rewrite Hc2.
        pose proof (generateWaterBodyData_later k w1) as (_ & Hc3 & _ & _).
        rewrite Hc3. apply Hm1. lia.
Qed.

(** X7.  With a clock that never runs backwards, after initialization and
    any number of ticks every history is in chronological order, oldest
    first: the timestamps never decrease along it. *)
Theorem history_in_chronological_order (n : nat) (w : World) :
  monotone_clock w ->
  map_Forall (fun _ history => StronglySorted Z.le (map timestamp history))
             (historicalData (fst (run n w))).
Proof.
  intros Hm.
  assert (H : monotone_clock (snd (run n w)) /\
              forall k h, historicalData (fst (run n w)) !! k = Some h ->
                StronglySorted Z.le (map timestamp h) /\
                Forall (fun d => timestamp d
                                 <= clock_reads (snd (run n w))
                                      (clock_next (snd (run n w)))) h).
  { apply (run_invariant
             (fun s w' =>
                monotone_clock w' /\
                forall k h, historicalData s !! k = Some h ->
                  StronglySorted Z.le (map timestamp h) /\
                  Forall (fun d => timestamp d <= clock_reads w' (clock_next w')) h)
             w).
    - split; [eapply later_monotone_clock; [apply initialize_later | exact Hm] |].
      intros k h. now apply ordered_after_initialize.
    - intros s w' [Hm' IH].
      split; [eapply later_monotone_clock; [apply tick_later | exact Hm'] |].
      now apply ordered_after_tick. }
  intros k h Hh. exact (proj1 (proj2 H k h Hh)).
Qed.

Lemma history_in_chronological_order_witness :
  let w := {| random_draws := fun _ => 0.25%Q; random_next := 0;
              clock_reads := fun i => 1700000000000 + 7 * Z.of_nat i;
              clock_next := 0 |} in
  map_Forall (fun _ history => StronglySorted Z.le (map timestamp history))
             (historicalData (fst (run 15 w))).
Proof.
  intros w. apply (history_in_chronological_order 15 w).
  intros i j Hij. cbn. lia.
Defined.

End Chronology.

(* ================================================================== *)
(** * Floors, and the single-site dashboard                            *)
(* ================================================================== *)

Section Floors.

Import Dashboard.
Local Open Scope number_scope.

(** X6.  For every baseline of the table and draws in [0, 1) the floor
    [Math.max(3, ...)] leaves the dissolved oxygen as it is: the value is
    the baseline plus its noise term, and at least 4.5.  The floor of the
    turbidity does act: for 'groundwater-1' and a draw of 0 the sum is
    below 0.1 and the reading has 0.1. *)
Theorem dissolvedOxygen_floor_never_binds :
  (forall (k : string) (B : Baseline.t) (w : World),
      getWaterBodyBaseline k = Own B -> random_in_range w ->
      let d := fst (generateWaterBodyData k w) in
      dissolvedOxygen d
      = Baseline.dissolvedOxygen B
        + (Fin (random_draws w (random_next w + 3)) - Fin 0.5) * Fin 2.0 /\
      dissolvedOxygen d >= Fin 4.5) /\
  (let d := fst (generateWaterBodyData "groundwater-1" (still_world 0 100000)) in
   Fin 0.5 + (Fin 0 - Fin 0.5) * Fin 1.5 < Fin 0.1 /\
   turbidity d = Fin 0.1).
Proof.
  split; [|split; vm_compute; reflexivity].
  intros k B w HB Hw d. subst d. rewrite generateWaterBodyData_reading. cbn zeta.
  destruct (baseline_ranges k B HB) as (p & t & c & o & -> & Hp & Ht & Hc & Ho).
  rewrite HB. cbn [dissolvedOxygen num_prop Baseline.dissolvedOxygen].
  destruct (noise_term _ 2.0 (Hw (random_next w + 3)%nat) ltac:(lra)) as [-> H3].
  assert (Hn : (-1 <= (random_draws w (random_next w + 3) + - 0.5) * 2.0 <= 1)%Q).
  { revert H3. apply Qabs_case; intros; lra. }
  rewrite (proj1 (perturbed_within o _ _ ltac:(lra) H3 ltac:(lra))).
  rewrite Math_max_Fin.
  set (x := (o + (random_draws w (random_next w + 3) + - 0.5) * 2.0)%Q) in *.
  assert (E : Qlt_bool 3 x = true) by (apply Qlt_bool_iff; unfold x; lra).
  rewrite E. split; [reflexivity |].
  unfold ge, geb. cbn. apply Qle_bool_iff. unfold x. lra.
Qed.

Lemma dissolvedOxygen_floor_never_binds_witness :
  let d := fst (generateWaterBodyData "musi-river" (still_world 0 100000)) in
  dissolvedOxygen d = Fin 5.5 + (Fin 0 - Fin 0.5) * Fin 2.0 /\
  dissolvedOxygen d >= Fin 4.5.
Proof.
  apply (proj1 dissolvedOxygen_floor_never_binds "musi-river"
           {| Baseline.pH := Fin 6.8; Baseline.turbidity := Fin 4.0;
              Baseline.temperature := Fin 26; Baseline.dissolvedOxygen := Fin 5.5 |}
           (still_world 0 100000)).
  - vm_compute. reflexivity.
  - intros n. cbn. lra.
Defined.

End Floors.

Section SingleSite.

Import SingleSiteDashboard.
Local Open Scope number_scope.

Lemma sample_later (stamp : M Z) (w : World) :
  (forall w', later w' (snd (stamp w'))) -> later w (snd (sample stamp w)).
Proof.
  intros Hs. unfold sample.
  repeat (apply bind_later; [apply Math_random_later | intros ? ?]).
  apply bind_later; [apply Hs |]. intros. apply later_refl.
Qed.

(** The values of a sample, for draws in [0, 1). *)
Lemma sample_values (stamp : M Z) (w : World) :
  random_in_range w ->
  exists a b c e : Q,
    pH (fst (sample stamp w)) = Fin a /\
    turbidity (fst (sample stamp w)) = Fin b /\
    temperature (fst (sample stamp w)) = Fin c /\
    dissolvedOxygen (fst (sample stamp w)) = Fin e /\
    (a == 6.5 + random_draws w (random_next w) * 2 /\
     b == 0.5 + random_draws w (S (random_next w)) * 3 /\
     c == 20 + random_draws w (S (S (random_next w))) * 8 /\
     e == 6 + random_draws w (S (S (S (random_next w)))) * 4)%Q /\
    (6.5 <= a < 8.5 /\ 0.5 <= b < 3.5 /\ 20 <= c < 28 /\ 6 <= e < 10)%Q.
Proof.
  intros Hw. unfold sample, bind, Math_random, ret.
  cbn [fst snd random_draws random_next].
  destruct (stamp _) as [t w']. cbn [fst pH turbidity temperature dissolvedOxygen].
  pose proof (Hw (random_next w)) as R0.
  pose proof (Hw (S (random_next w))) as R1.
  pose proof (Hw (S (S (random_next w)))) as R2.
  pose proof (Hw (S (S (S (random_next w))))) as R3.
  unfold mul, add.
  rewrite !fin_small by (apply Qabs_case; intros; nra).
  do 4 eexists. do 4 (split; [reflexivity |]).
  split; [repeat split; reflexivity |]. repeat split; nra.
Qed.

Lemma single_getStatus_Fin_not_danger (a lo hi : Q) (optimal : number * number) :
  (lo <= a <= hi)%Q -> getStatus (Fin a) (Fin lo) (Fin hi) optimal <> danger.
Proof. exact (getStatus_Fin_not_danger a lo hi optimal). Qed.

Lemma sample_never_danger (stamp : M Z) (w : World) :
  random_in_range w ->
  let d := fst (sample stamp w) in
  pH_status d <> danger /\ turbidity_status d <> danger /\
  temperature_status d <> danger /\ dissolvedOxygen_status d <> danger.
Proof.
  intros Hw d. subst d.
  destruct (sample_values stamp w Hw)
    as (a & b & c & e & E1 & E2 & E3 & E4 & _ & Ha & Hb & Hc & He).
  unfold pH_status, turbidity_status, temperature_status, dissolvedOxygen_status.
  rewrite E1, E2, E3, E4.
  repeat split; apply single_getStatus_Fin_not_danger; lra.
Qed.

Lemma single_tick_parts (s : State) (w : World) :
  currentData (fst (tick s w)) = fst (sample Date_now w) /\
  historicalData (fst (tick s w))
  = slice (-20) (historicalData s ++ [fst (sample Date_now w)]) /\
  snd (tick s w) = snd (sample Date_now w).
Proof.
  unfold tick, bind, ret. destruct (sample Date_now w) as [d w'].
  repeat split.
Qed.

Lemma single_seed_entry_parts (acc : list WaterQualityData) (i : Z) (w : World) :
  exists stamp : M Z,
    (forall w', later w' (snd (stamp w'))) /\
    fst (seed_entry acc i w) = acc ++ [fst (sample stamp w)] /\
    snd (seed_entry acc i w) = snd (sample stamp w).
Proof.
  unfold seed_entry.
  set (stamp := bind Date_now (fun now => ret (now - (10 - i) * 3000)%Z)).
  exists stamp. split.
  - intros w'. unfold stamp.
    apply bind_later; [apply Date_now_later |]. intros. apply later_refl.
  - unfold bind, ret. destruct (sample stamp w) as [d w']. split; reflexivity.
Qed.

Lemma single_initialize_parts (s : State) (w : World) :
  currentData (fst (initialize s w)) = currentData s /\
  historicalData (fst (initialize s w))
  = fst (foldM seed_entry (Dashboard.upto 10) [] w) /\
  snd (initialize s w) = snd (foldM seed_entry (Dashboard.upto 10) [] w).
Proof.
  unfold initialize, bind, ret.
  destruct (foldM seed_entry (Dashboard.upto 10) [] w) as [h w'].
  repeat split.
Qed.

Section SingleInvariant.

Variable Holds : WaterQualityData -> Prop.
Hypothesis Holds_sample :
  forall (stamp : M Z) (w : World), random_in_range w -> Holds (fst (sample stamp w)).

Lemma single_seed_loop_holds (idx : list Z) (acc : list WaterQualityData)
    (w : World) :
  random_in_range w -> Forall Holds acc ->
  Forall Holds (fst (foldM seed_entry idx acc w)) /\
  later w (snd (foldM seed_entry idx acc w)).
Proof.
  revert acc w. induction idx as [|i idx IH]; intros acc w Hw Hacc; cbn [foldM].
  - split; [exact Hacc | apply later_refl].
  - unfold bind at 1 2.
    destruct (single_seed_entry_parts acc i w) as (stamp & Hst & Hf & Hs).
    pose proof (sample_later stamp w Hst) as Hl. rewrite <- Hs in Hl.
    pose proof (Holds_sample stamp w Hw) as Hq.
    destruct (seed_entry acc i w) as [acc' w']. cbn [fst snd] in *. subst acc'.
    destruct (IH (acc ++ [fst (sample stamp w)]) w') as [H1 H2].
    + eapply later_random_in_range; eassumption.
    + apply Forall_app. split; [exact Hacc |].
      apply Forall_cons. split; [exact Hq | apply Forall_nil_2].
    + split; [exact H1 | eapply later_trans; eassumption].
Qed.

Lemma single_ticks_hold (n : nat) (s : State) (w : World) :
  random_in_range w -> Forall Holds (historicalData s) ->
  Forall Holds (historicalData (fst (ticks n s w))) /\
  (n <> 0%nat -> Holds (currentData (fst (ticks n s w)))).
Proof.
  revert s w. induction n as [|n IH]; intros s w Hw Hh; cbn [ticks].
  - split; [exact Hh | congruence].
  - unfold bind. destruct (single_tick_parts s w) as (Hc & Hhist & Hworld).
    pose proof (sample_later Date_now w Date_now_later) as Hl.
    rewrite <- Hworld in Hl.
    pose proof (Holds_sample Date_now w Hw) as Hq.
    destruct (tick s w) as [s' w']. cbn [fst snd] in *.
    assert (Hw' : random_in_range w') by (eapply later_random_in_range; eassumption).
    assert (Hh' : Forall Holds (historicalData s')).
    { rewrite Hhist, slice_last. apply Forall_drop, Forall_app.
      split; [exact Hh |]. apply Forall_cons. split; [exact Hq | apply Forall_nil_2]. }
    destruct (IH s' w' Hw' Hh') as [H1 H2]. split; [exact H1 |]. intros _.
    destruct n as [|n]; [|apply H2; congruence].
    cbn [ticks]. unfold ret. cbn [fst]. now rewrite Hc.
Qed.

Lemma single_run_holds (n : nat) (w : World) :
  random_in_range w ->
  Holds (currentData (fst (initial w))) ->
  Forall Holds (historicalData (fst (run n w))) /\ Holds (currentData (fst (run n w))).
Proof.
  intros Hw H0. unfold run, bind.
  pose proof (Date_now_later w) as Hl0.
  assert (E0 : snd (initial w) = snd (Date_now w)) by reflexivity.
  rewrite <- E0 in Hl0.
  destruct (initial w) as [s0 w0]. cbn [fst snd] in *.
  assert (Hw0 : random_in_range w0) by (eapply later_random_in_range; eassumption).
  destruct (single_initialize_parts s0 w0) as (Ec & Eh & Ew).
  destruct (single_seed_loop_holds (Dashboard.upto 10) [] w0 Hw0 (Forall_nil_2 _))
    as [Hseed Hl1].
  rewrite <- Eh in Hseed. rewrite <- Ew in Hl1.
  destruct (initialize s0 w0) as [s1 w1]. cbn [fst snd] in *.
  assert (Hw1 : random_in_range w1) by (eapply later_random_in_range; eassumption).
  destruct (single_ticks_hold n s1 w1 Hw1 Hseed) as [H1 H2].
  split; [exact H1 |].
  destruct n as [|n]; [|apply H2; congruence].
  cbn [ticks]. unfold ret. cbn [fst]. now rewrite Ec.
Qed.

End SingleInvariant.

(** X8.  With draws in [0, 1), the single-site dashboard never classifies
    a reading ['danger']: neither its current reading, from the initial
    one on, nor any entry of its history, for any of the four parameters. *)
Theorem single_site_never_danger (n : nat) (w : World) :
  random_in_range w ->
  let calm := fun d : WaterQualityData =>
    pH_status d <> danger /\ turbidity_status d <> danger /\
    temperature_status d <> danger /\ dissolvedOxygen_status d <> danger in
  calm (currentData (fst (run n w))) /\
  Forall calm (historicalData (fst (run n w))).
Proof.
  intros Hw calm.
  destruct (single_run_holds calm (fun stamp w' Hw' => sample_never_danger stamp w' Hw')
              n w Hw) as [H1 H2].
  - unfold calm. repeat split; vm_compute; discriminate.
  - split; assumption.
Qed.

Lemma single_site_never_danger_witness :
  let w := still_world 0.99 100000 in
  let calm := fun d : WaterQualityData =>
    pH_status d <> danger /\ turbidity_status d <> danger /\
    temperature_status d <> danger /\ dissolvedOxygen_status d <> danger in
  calm (currentData (fst (run 25 w))) /\
  Forall calm (historicalData (fst (run 25 w))).
Proof.
  intros w. apply (single_site_never_danger 25 w). intros i. cbn. lra.
Defined.

(** X9.  In the single-site dashboard the reading a tick shows as current
    is the one it appends: after any tick the last entry of the history
    is the current reading.  The multi-site dashboard generates the two
    separately: in a world whose draws run through 0.00, 0.01, ..., 0.99
    again and again, the current reading of 'hussain-sagar' after
    initialization and one tick and the last entry of its history differ
    in pH. *)
Theorem single_site_history_ends_with_current :
  (forall (s : State) (w : World),
      last (historicalData (fst (tick s w))) = Some (currentData (fst (tick s w)))) /\
  (forall (n : nat) (w : World),
      last (historicalData (fst (run (S n) w)))
      = Some (currentData (fst (run (S n) w)))) /\
  (let w := {| random_draws := fun i => Z.of_nat (i mod 100) # 100;
               random_next := 0;
               clock_reads := fun _ => 100000; clock_next := 0 |} in
   let s' := fst (Dashboard.run 1 w) in
   exists d d' h,
     Dashboard.currentData s' !! "hussain-sagar"%string = Some d /\
     Dashboard.historicalData s' !! "hussain-sagar"%string = Some h /\
     last h = Some d' /\
     Dashboard.pH d < Dashboard.pH d').
Proof.
  assert (Htick : forall (s : State) (w : World),
             last (historicalData (fst (tick s w)))
             = Some (currentData (fst (tick s w)))).
  { intros s w. destruct (single_tick_parts s w) as (-> & -> & _).
    rewrite slice_last, drop_app_le by (rewrite length_app; cbn; lia).
    apply last_snoc. }
  split; [exact Htick | split].
  - intros n w. unfold run, bind. destruct (initial w) as [s0 w0].
    destruct (initialize s0 w0) as [s1 w1]. revert s1 w1.
    induction n as [|n IH]; intros s1 w1.
    + cbn [ticks]. unfold bind, ret. pose proof (Htick s1 w1) as H.
      destruct (tick s1 w1) as [s2 w2]. exact H.
    + change (ticks (S (S n)) s1 w1)
        with (bind (tick s1) (fun s' => ticks (S n) s') w1).
      unfold bind. destruct (tick s1 w1) as [s2 w2]. apply IH.
  - cbn zeta. do 3 eexists.
    split; [vm_compute; reflexivity |]. split; [vm_compute; reflexivity |].
    split; vm_compute; reflexivity.
Qed.

End SingleSite.

(* ================================================================== *)
(** * The form, the manual readings and the badges                     *)
(* ================================================================== *)

Section FormFields.

Import ManualWaterQualityInput.




End FormFields.

Section ManualReadings.

Import Dashboard.

Lemma ticks_manualReadings (n : nat) (s : State) (w : World) :
  manualReadings (fst (ticks n s w)) = manualReadings s.
Proof.
  revert s w. induction n as [|n IH]; intros s w; cbn [ticks]; [reflexivity |].
  unfold bind. pose proof (tick_manualReadings s w) as H.
  destruct (tick s w) as [s' w']. cbn [fst] in H. now rewrite IH.
Qed.

(** X11.  A submit request on the manual tab never touches the current
    readings, the histories or the text of the form.  When it emits a
    reading, that reading is put in front of the manual readings and kept
    as [lastReading], stamped with the clock reading of the submission
    and tagged 'Hyderabad'; when the request is blocked nothing changes at
    all and the clock is not read.  Ticks keep the manual readings as they
    are: unlike the histories they are never cut. *)
Theorem manual_readings_newest_first_and_kept
    (attributes : ManualWaterQualityInput.FormData.t)
    (form : ManualWaterQualityInput.State) (s : State) (w : World) :
  let after := fst (manual_submit attributes form s w) in
  currentData (snd after) = currentData s /\
  historicalData (snd after) = historicalData s /\
  ManualWaterQualityInput.formData (fst after)
  = ManualWaterQualityInput.formData form /\
  match snd (fst (ManualWaterQualityInput.submit attributes form w)) with
  | Some reading =>
      manualReadings (snd after) = reading :: manualReadings s /\
      ManualWaterQualityInput.lastReading (fst after) = Some reading /\
      ManualWaterQualityInput.timestamp reading = clock_reads w (clock_next w) /\
      ManualWaterQualityInput.location reading = "Hyderabad"%string
  | None =>
      manual_submit attributes form s w = (form, s, w)
  end /\
  (forall n w', manualReadings (fst (ticks n (snd after) w'))
                = manualReadings (snd after)).
Proof.
  cbn zeta. unfold manual_submit, ManualWaterQualityInput.submit.
  destruct (ManualWaterQualityInput.submit_disabled _);
    [|destruct (ManualWaterQualityInput.checkValidity _ _)];
    unfold bind, ret, ManualWaterQualityInput.handleSubmit, Date_now;
    cbn [fst snd currentData historicalData manualReadings handleManualReading
         ManualWaterQualityInput.formData ManualWaterQualityInput.lastReading
         ManualWaterQualityInput.timestamp ManualWaterQualityInput.location];
    repeat split; intros; apply ticks_manualReadings.
Qed.

End ManualReadings.

Section Overflow.

Import ManualWaterQualityInput.
Local Open Scope number_scope.




End Overflow.

Section TypeColours.

Import Dashboard.

Lemma colors_keys (type : string) :
  colors !! type = None
  <-> type ∉ map type_name [lake; river; reservoir; groundwater].
Proof.
  unfold colors. rewrite <- not_elem_of_list_to_map. reflexivity.
Qed.

(** X13.  [getWaterBodyTypeColor] gives each of the four types its own
    colour class, so no registered site gets the gray fallback; any other
    string that is not a name inherited from [Object.prototype] gets
    'text-gray-600'. *)
Theorem getWaterBodyTypeColor_cases :
  (forall t : WaterBodyType,
      getWaterBodyTypeColor (type_name t)
      = Own (match t with
             | lake => "text-blue-600"
             | river => "text-green-600"
             | reservoir => "text-purple-600"
             | groundwater => "text-orange-600"
             end)%string) /\
  Forall (fun waterBody =>
            exists class,
              getWaterBodyTypeColor (type_name (type waterBody)) = Own class /\
              class <> "text-gray-600"%string)
         waterBodies /\
  (forall type : string,
      type ∉ map type_name [lake; river; reservoir; groundwater] ->
      type ∉ Object_prototype_names ->
      getWaterBodyTypeColor type = Own "text-gray-600"%string).
Proof.
  split; [intros []; vm_compute; reflexivity | split].
  - unfold waterBodies.
    repeat (apply Forall_cons; split;
            [eexists; split; [vm_compute; reflexivity | discriminate] |]).
    apply Forall_nil_2.
  - intros type Ht Hp. apply colors_keys in Ht.
    unfold getWaterBodyTypeColor, get. rewrite Ht.
    now rewrite bool_decide_eq_false_2.
Qed.

Lemma getWaterBodyTypeColor_cases_witness :
  getWaterBodyTypeColor "canal" = Own "text-gray-600"%string.
Proof.
  apply (proj2 (proj2 getWaterBodyTypeColor_cases));
    apply (bool_decide_unpack _); vm_compute; reflexivity.
Defined.

End TypeColours.

(* ================================================================== *)
(** * The single-site dashboard over time                              *)
(* ================================================================== *)

Section SingleSiteOverTime.

Import SingleSiteDashboard.



(** A simulated reading stamped with [new Date()] carries the clock
    reading it consumed. *)
Lemma sample_clock (w : World) :
  timestamp (fst (sample Date_now w)) = clock_reads w (clock_next w) /\
  clock_next (snd (sample Date_now w)) = S (clock_next w) /\
  clock_reads (snd (sample Date_now w)) = clock_reads w.
Proof.
  unfold sample, bind, Math_random, Date_now, ret.
  cbn [fst snd timestamp clock_next clock_reads]. repeat split.
Qed.

(** The [i]-th seeded entry is stamped [(10 - i) * 3000] ms before the
    clock. *)
Lemma single_seed_entry_stamp (acc : list WaterQualityData) (i : Z) (w : World) :
  map timestamp (fst (seed_entry acc i w))
  = map timestamp acc ++ [clock_reads w (clock_next w) - (10 - i) * 3000] /\
  clock_next (snd (seed_entry acc i w)) = S (clock_next w) /\
  clock_reads (snd (seed_entry acc i w)) = clock_reads w.
Proof.
  unfold seed_entry, sample, bind, Math_random, Date_now, ret.
  cbn [fst snd timestamp clock_next clock_reads]. rewrite map_app.
  repeat split.
Qed.

Lemma single_seed_loop_sorted (m a : nat) (acc : list WaterQualityData)
    (w : World) :
  monotone_clock w ->
  StronglySorted Z.le (map timestamp acc) ->
  Forall (fun t => t <= clock_reads w (clock_next w) - (10 - Z.of_nat a) * 3000)
         (map timestamp acc) ->
  StronglySorted Z.le
    (map timestamp (fst (foldM seed_entry (map Z.of_nat (seq a m)) acc w))) /\
  Forall (fun t =>
            t <= clock_reads w
                   (clock_next (snd (foldM seed_entry
                                       (map Z.of_nat (seq a m)) acc w)))
                 - (10 - Z.of_nat (a + m)) * 3000)
         (map timestamp (fst (foldM seed_entry (map Z.of_nat (seq a m)) acc w))) /\
  clock_reads (snd (foldM seed_entry (map Z.of_nat (seq a m)) acc w))
  = clock_reads w.
Proof.
  intros Hmono. revert a acc w Hmono.
  induction m as [|m IH]; intros a acc w Hmono Hs Hb; cbn [seq map foldM].
  - unfold ret. cbn [fst snd]. rewrite Nat.add_0_r. repeat split; assumption.
  - unfold bind at 1 2 3 4.
    destruct (single_seed_entry_stamp acc (Z.of_nat a) w) as (Ht & Hn & Hc).
    destruct (seed_entry acc (Z.of_nat a) w) as [acc' w']. cbn [fst snd] in *.
    assert (Hmono' : monotone_clock w').
    { intros i j Hij. rewrite Hc. now apply Hmono. }
    pose proof (Hmono (clock_next w) (S (clock_next w)) ltac:(lia)) as H01.
    destruct (IH (S a) acc' w' Hmono') as (Hs' & Hb' & Hc').
    + rewrite Ht. apply StronglySorted_snoc; [exact Hs |].
      eapply Forall_impl; [exact Hb |]. cbn beta. intros t Ht'. lia.
    + rewrite Ht, Hc, Hn. apply Forall_app. split.
      * eapply Forall_impl; [exact Hb |]. cbn beta. intros t Ht'. lia.
      * apply Forall_cons. split; [lia | apply Forall_nil_2].
    + rewrite Hc in Hb'. replace (a + S m)%nat with (S a + m)%nat by lia.
      split; [exact Hs' | split; [exact Hb' | congruence]].
Qed.

Lemma single_ticks_sorted (n : nat) (s : State) (w : World) :
  monotone_clock w ->
  StronglySorted Z.le (map timestamp (historicalData s)) ->
  Forall (fun t => t <= clock_reads w (clock_next w))
         (map timestamp (historicalData s)) ->
  StronglySorted Z.le (map timestamp (historicalData (fst (ticks n s w)))).
Proof.
  revert s w. induction n as [|n IH]; intros s w Hm Hs Hb; cbn [ticks].
  - exact Hs.
  - unfold bind. destruct (single_tick_parts s w) as (_ & Hh & Hw).
    destruct (sample_clock w) as (Hstamp & Hnext & Hreads).
    destruct (tick s w) as [s' w']. cbn [fst snd] in *. subst w'.
    pose proof (Hm (clock_next w) (S (clock_next w)) ltac:(lia)) as H01.
    apply IH.
    + intros i j Hij. rewrite Hreads. now apply Hm.
    + rewrite Hh, slice_last, <- skipn_map. apply StronglySorted_drop.
      rewrite map_app. cbn [map]. apply StronglySorted_snoc; [exact Hs |].
      rewrite Hstamp. exact Hb.
    + rewrite Hh, slice_last, <- skipn_map, Hreads, Hnext. apply Forall_drop.
      rewrite map_app. cbn [map]. apply Forall_app. split.
      * eapply Forall_impl; [exact Hb |]. cbn beta. intros t Ht. lia.
      * apply Forall_cons. split; [rewrite Hstamp; lia | apply Forall_nil_2].
Qed.

(** X15.  With a clock that never runs backwards, the history of the
    single-site dashboard is in chronological order, oldest first, after
    initialization and any number of ticks: the seeded entries are stamped
    30 s, 27 s, ..., 3 s before the clock, the appended ones at it. *)
Theorem single_site_history_in_chronological_order (n : nat) (w : World) :
  monotone_clock w ->
  StronglySorted Z.le (map timestamp (historicalData (fst (run n w)))).
Proof.
  intros Hm. unfold run, bind.
  assert (E0 : snd (initial w) = snd (Date_now w)) by reflexivity.
  destruct (initial w) as [s0 w0]. cbn [snd] in E0.
  assert (Hm0 : monotone_clock w0).
  { subst w0. intros i j Hij. cbn. now apply Hm. }
  destruct (single_initialize_parts s0 w0) as (_ & Eh & Ew).
  destruct (single_seed_loop_sorted 10 0 [] w0 Hm0) as (Hs & Hb & Hc).
  { constructor. }
  { apply Forall_nil_2. }
  change (map Z.of_nat (seq 0 10)) with (Dashboard.upto 10) in *.
  rewrite <- Eh in Hs, Hb. rewrite <- Ew in Hb, Hc.
  destruct (initialize s0 w0) as [s1 w1]. cbn [fst snd] in *.
  apply single_ticks_sorted.
  - intros i j Hij. rewrite Hc. now apply Hm0.
  - exact Hs.
  - rewrite Hc. eapply Forall_impl; [exact Hb |]. cbn beta. intros t Ht. lia.
Qed.

Lemma single_site_history_in_chronological_order_witness :
  let w := {| random_draws := fun _ => 0.25%Q; random_next := 0;
              clock_reads := fun i => 1700000000000 + 7 * Z.of_nat i;
              clock_next := 0 |} in
  StronglySorted Z.le (map timestamp (historicalData (fst (run 15 w)))).
Proof.
  intros w. apply (single_site_history_in_chronological_order 15%nat w).
  intros i j Hij. cbn. lia.
Defined.

End SingleSiteOverTime.
